(** * flask_cqlalchemy: a shallow embedding of [flask_cqlalchemy/__init__.py]

    The module binds a Flask application to the cqlengine driver.  Its logic
    is the subclass enumerator ([flatten], [get_subclasses]), the retrying
    executor ([handel_db_timeout]) and the facade ([CQLAlchemy]) with the two
    free functions [drop_db] and [drop_tables].

    Python objects are modelled by [pyval]; methods that mutate [self] or
    module globals are state-passing functions in the monad [M], whose
    results are either a returned value or a raised exception.  The
    attributes of the facade that only re-export driver names ([columns],
    [UserType], [sync_table], ...) carry no logic and are left out. *)

From stdpp Require Import gmap strings list.
From Stdlib Require Import ZArith Lia.

Local Open Scope string_scope.
Local Open Scope Z_scope.

Set Warnings "-register-all".

(** ** Classes and values *)

(** A model class as the enumerator sees it: its [__abstract__] flag and the
    list returned by [__subclasses__()], in declaration order. *)
Inductive cls : Type :=
  Class (name : string) (abstract : bool) (subclasses : list cls).

Definition __name__ (c : cls) : string :=
  match c with Class n _ _ => n end.

Definition __abstract__ (c : cls) : bool :=
  match c with Class _ a _ => a end.

Definition __subclasses__ (c : cls) : list cls :=
  match c with Class _ _ s => s end.

(** The values that travel through the module: configuration entries,
    arguments of driver calls, session timeouts. *)
Inductive pyval : Type :=
  | PyNone
  | PyBool (b : bool)
  | PyInt (z : Z)
  | PyStr (s : string)
  | PyList (l : list pyval)
  | PyDict (d : list (string * pyval))
  | PyType (c : cls).

(** Python truthiness ([if x:], [not x]). *)
Definition truthy (v : pyval) : bool :=
  match v with
  | PyNone => false
  | PyBool b => b
  | PyInt z => negb (z =? 0)
  | PyStr s => negb (String.eqb s "")
  | PyList l => match l with [] => false | _ => true end
  | PyDict d => match d with [] => false | _ => true end
  | PyType _ => true
  end.

(** ** The subclass enumerator *)

(** [[item for sublist in lists for item in sublist]]: the outer loop walks
    the sublists, the inner loop emits the items of one sublist. *)
Fixpoint flatten {A : Type} (lists : list (list A)) : list A :=
  match lists with
  | [] => []
  | sublist :: rest =>
      (fix items (l : list A) : list A :=
         match l with
         | [] => flatten rest
         | item :: l' => item :: items l'
         end) sublist
  end.

Fixpoint get_subclasses (c : cls) : list cls :=
  if __abstract__ c
  then flatten (map get_subclasses (__subclasses__ c))
  else [c].

(** Induction over a class tree, with the hypothesis available for every
    direct subclass. *)
Section cls_induction.
Variable P : cls -> Prop.
Hypothesis step : forall n a subs, Forall P subs -> P (Class n a subs).

Fixpoint cls_ind_nested (c : cls) : P c :=
  match c with
  | Class n a subs =>
      step n a subs
        ((fix all (l : list cls) : Forall P l :=
            match l with
            | [] => @List.Forall_nil _ P
            | s :: l' => @List.Forall_cons _ P s l' (cls_ind_nested s) (all l')
            end) subs)
  end.
End cls_induction.

(** ** Exceptions and results *)

(** An exception class with the names of its proper ancestors. *)
Record exc_class : Type := ExcClass {
  exc_name : string;
  exc_bases : list string
}.

Record exn : Type := Exn {
  exn_class : exc_class;
  exn_msg : string
}.

Definition Exception : exc_class := ExcClass "Exception" [].
Definition KeyError : exc_class := ExcClass "KeyError" ["LookupError"; "Exception"].
Definition AttributeError : exc_class := ExcClass "AttributeError" ["Exception"].
Definition TypeError : exc_class := ExcClass "TypeError" ["Exception"].
Definition OperationTimedOut : exc_class :=
  ExcClass "OperationTimedOut" ["DriverException"; "Exception"].
(** [class NoConfig(Exception)]. *)
Definition NoConfig : exc_class := ExcClass "NoConfig" ["Exception"].

Definition issubclass (c k : exc_class) : bool :=
  String.eqb (exc_name c) (exc_name k)
  || existsb (String.eqb (exc_name k)) (exc_bases c).

(** [except k:] catches [e] when [isinstance e k]. *)
Definition isinstance (e : exn) (k : exc_class) : bool :=
  issubclass (exn_class e) k.

(** The text of an instance made without arguments.  The driver's
    [OperationTimedOut.__init__(errors=None, last_host=None)] formats its
    two arguments; a class that inherits [Exception.__init__] has the empty
    text. *)
Definition no_argument_message (k : exc_class) : string :=
  if String.eqb (exc_name k) "OperationTimedOut"
  then "errors=None, last_host=None"
  else "".

(** [raise k] with a class instantiates it without arguments. *)
Definition instantiate (k : exc_class) : exn := Exn k (no_argument_message k).

Inductive result (T : Type) : Type :=
  | Returned (v : T)
  | Raised (e : exn).
Arguments Returned {T} v.
Arguments Raised {T} e.

(** ** State and exceptions *)

(** A computation over a mutable state [S]; the state survives a raise. *)
Definition M (S T : Type) : Type := S -> result T * S.

Definition ret {S T : Type} (v : T) : M S T := fun s => (Returned v, s).

Definition bind {S T U : Type} (m : M S T) (k : T -> M S U) : M S U :=
  fun s =>
    match m s with
    | (Returned v, s') => k v s'
    | (Raised e, s') => (Raised e, s')
    end.

Definition raise {S T : Type} (e : exn) : M S T := fun s => (Raised e, s).

Definition get {S : Type} : M S S := fun s => (Returned s, s).

Definition modify {S : Type} (f : S -> S) : M S unit := fun s => (Returned tt, f s).

(** Runs [m] and hands its outcome to the continuation: the shape of a
    [try] statement whose clauses inspect how the body ended. *)
Definition attempt {S T : Type} (m : M S T) : M S (result T) :=
  fun s => let '(r, s') := m s in (Returned r, s').

Declare Scope py_scope.
Delimit Scope py_scope with py.
Notation "x <- m ;; k" := (bind m (fun x => k))
  (at level 100, m at next level, right associativity) : py_scope.
Notation "m ;;; k" := (bind m (fun _ => k))
  (at level 100, right associativity) : py_scope.
Local Open Scope py_scope.

(** ** The process state *)

(** A live driver session is named by a handle. *)
Definition sid : Type := nat.

(** One call of an executor's target operation: its arguments and the
    default timeout every session had when the call was made. *)
Record Invocation : Type := {
  inv_args : list pyval;
  inv_kwargs : list (string * pyval);
  inv_timeouts : sid -> pyval
}.

(** Arguments of one [connection.setup] call. *)
Record SetupCall : Type := {
  setup_hosts : pyval;
  setup_keyspace : pyval;
  setup_consistency : pyval;
  setup_lazy_connect : pyval;
  setup_retry_connect : pyval;
  setup_kwargs : list (string * pyval)
}.

Record World : Type := {
  (** [cassandra.cqlengine.models.DEFAULT_KEYSPACE] *)
  DEFAULT_KEYSPACE : pyval;
  (** [cassandra.cqlengine.models.Model] with the classes derived from it *)
  models_Model : cls;
  (** [cassandra.cqlengine.connection.session]; [None] before a connection *)
  connection_session : option sid;
  (** the [default_timeout] attribute of each session *)
  default_timeout : sid -> pyval;
  (** calls of target operations made through [handel_db_timeout.execute],
      oldest first *)
  invoked : list Invocation;
  (** messages passed to [logger.warning] and to [print] *)
  logged : list string;
  printed : list string
}.

Definition set_DEFAULT_KEYSPACE (v : pyval) (w : World) : World :=
  {| DEFAULT_KEYSPACE := v; models_Model := models_Model w;
     connection_session := connection_session w;
     default_timeout := default_timeout w; invoked := invoked w;
     logged := logged w; printed := printed w |}.

(** [session.default_timeout = v] for the session [s]. *)
Definition set_default_timeout (s : sid) (v : pyval) (w : World) : World :=
  {| DEFAULT_KEYSPACE := DEFAULT_KEYSPACE w; models_Model := models_Model w;
     connection_session := connection_session w;
     default_timeout := fun s' => if Nat.eqb s' s then v else default_timeout w s';
     invoked := invoked w; logged := logged w; printed := printed w |}.

Definition record_invocation (i : Invocation) (w : World) : World :=
  {| DEFAULT_KEYSPACE := DEFAULT_KEYSPACE w; models_Model := models_Model w;
     connection_session := connection_session w;
     default_timeout := default_timeout w; invoked := invoked w ++ [i];
     logged := logged w; printed := printed w |}.

Definition log_warning (mesg : string) (w : World) : World :=
  {| DEFAULT_KEYSPACE := DEFAULT_KEYSPACE w; models_Model := models_Model w;
     connection_session := connection_session w;
     default_timeout := default_timeout w; invoked := invoked w;
     logged := logged w ++ [mesg]; printed := printed w |}.

Definition print (mesg : string) (w : World) : World :=
  {| DEFAULT_KEYSPACE := DEFAULT_KEYSPACE w; models_Model := models_Model w;
     connection_session := connection_session w;
     default_timeout := default_timeout w; invoked := invoked w;
     logged := logged w; printed := printed w ++ [mesg] |}.

(** A driver operation handed to the executor ([drop_keyspace],
    [drop_table], ...).  What it does to the database is outside this
    module; here it is a function of its arguments and of the process
    state it runs in, which includes the calls already made.  It assigns
    neither session timeouts nor module globals. *)
Definition Callable : Type :=
  list pyval -> list (string * pyval) -> World -> result pyval.

(** An operation with its effects: besides returning or raising it may
    assign anything in the process state (a session's timeout,
    [connection.session], the default keyspace) and write to the log or the
    standard output.  [execute] is modelled for such operations by
    [handel_db_timeout.execute_with]; a [Callable] is the special case that
    leaves the state as it is. *)
Definition Operation : Type :=
  list pyval -> list (string * pyval) -> World -> result pyval * World.

Definition pure_operation (f : Callable) : Operation :=
  fun args kwags w => (f args kwags w, w).

(** The trace is kept by the model of [execute], not by the operation:
    after a call it is the trace before the call with the call added,
    whatever the operation's own result holds in that field. *)
Definition set_invoked (l : list Invocation) (w : World) : World :=
  {| DEFAULT_KEYSPACE := DEFAULT_KEYSPACE w; models_Model := models_Model w;
     connection_session := connection_session w;
     default_timeout := default_timeout w; invoked := l;
     logged := logged w; printed := printed w |}.

(** ** The retrying executor *)

Module handel_db_timeout.

Record t : Type := {
  func : Callable;
  tries : Z;
  logger : bool;              (* whether a logger was supplied *)
  session : option sid;
  error : exc_class
}.

(** [handel_db_timeout(func, tries=2, logger=None, session=None,
    error=OperationTimedOut)] *)
Definition __init__ (func : Callable) (tries : option Z) (logger : bool)
    (session : option sid) (error : option exc_class) : t :=
  {| func := func;
     tries := default 2 tries;
     logger := logger;
     session := session;
     error := default OperationTimedOut error |}.

Definition State : Type := (t * World)%type.

Definition set_session (s : option sid) (self : t) : t :=
  {| func := func self; tries := tries self; logger := logger self;
     session := s; error := error self |}.

Definition on_world (f : World -> World) : M State unit :=
  modify (fun '(self, w) => (self, f w)).

Definition self_ : M State t := fun st => (Returned (fst st), st).
Definition world_ : M State World := fun st => (Returned (snd st), st).

Definition warning (mesg : string) : M State unit :=
  self <- self_ ;;
  if logger self then on_world (log_warning mesg) else on_world (print mesg).

Definition __enter__ : M State t := self_.

Definition __exit__ : M State unit := ret tt.

(** [self.func( *args, **kwags)]: the call is entered in the trace and the
    operation's outcome becomes the outcome of the statement. *)
Definition invoke (args : list pyval) (kwags : list (string * pyval))
    : M State pyval :=
  fun '(self, w) =>
    (func self args kwags w,
     (self, record_invocation
              {| inv_args := args; inv_kwargs := kwags;
                 inv_timeouts := default_timeout w |} w)).

(** The [except self.error:] clause; it returns the new value of the
    local variable [default_timeout]. *)
Definition on_timeout (local_default_timeout : pyval) : M State pyval :=
  warning "Taking Longer to drop...." ;;;
  self <- self_ ;;
  (match session self with
   | None => modify (fun '(self, w) => (set_session (connection_session w) self, w))
   | Some _ => ret tt
   end) ;;;
  self <- self_ ;;
  match session self with
  | Some s =>
      w <- world_ ;;
      on_world (set_default_timeout s (PyInt 100)) ;;;
      ret (default_timeout w s)
  | None => ret local_default_timeout
  end.

(** The [finally:] clause. *)
Definition restore (local_default_timeout : pyval) : M State unit :=
  self <- self_ ;;
  match session self with
  | Some s =>
      if truthy local_default_timeout
      then on_world (set_default_timeout s local_default_timeout)
      else ret tt
  | None => ret tt
  end.

(** The [for _ in range(self.tries)] loop with [n] iterations left,
    followed by the [raise self.error] after it. *)
Fixpoint loop (n : nat) (local_default_timeout : pyval)
    (args : list pyval) (kwags : list (string * pyval)) : M State pyval :=
  match n with
  | O => self <- self_ ;; raise (instantiate (error self))
  | S n' =>
      r <- attempt (invoke args kwags) ;;
      match r with
      | Returned v => restore local_default_timeout ;;; ret v
      | Raised e =>
          self <- self_ ;;
          if isinstance e (error self)
          then
            dt <- on_timeout local_default_timeout ;;
            restore dt ;;;
            loop n' dt args kwags
          else restore local_default_timeout ;;; raise e
      end
  end.

Definition execute (args : list pyval) (kwags : list (string * pyval))
    : M State pyval :=
  self <- self_ ;;
  loop (Z.to_nat (tries self)) PyNone args kwags.

(** [execute] with an operation that has effects.  The operation stands
    for [self.func]; everything else is [execute] as above. *)
Section Effectful.

Variable op : Operation.

(** [self.func( *args, **kwags)] *)
Definition invoke_with (args : list pyval) (kwags : list (string * pyval))
    : M State pyval :=
  fun '(self, w) =>
    let '(r, w') := op args kwags w in
    (r, (self, set_invoked
                 (invoked w ++ [{| inv_args := args; inv_kwargs := kwags;
                                   inv_timeouts := default_timeout w |}])%list
                 w')).

Fixpoint loop_with (n : nat) (local_default_timeout : pyval)
    (args : list pyval) (kwags : list (string * pyval)) : M State pyval :=
  match n with
  | O => self <- self_ ;; raise (instantiate (error self))
  | S n' =>
      r <- attempt (invoke_with args kwags) ;;
      match r with
      | Returned v => restore local_default_timeout ;;; ret v
      | Raised e =>
          self <- self_ ;;
          if isinstance e (error self)
          then
            dt <- on_timeout local_default_timeout ;;
            restore dt ;;;
            loop_with n' dt args kwags
          else restore local_default_timeout ;;; raise e
      end
  end.

Definition execute_with (args : list pyval) (kwags : list (string * pyval))
    : M State pyval :=
  self <- self_ ;;
  loop_with (Z.to_nat (tries self)) PyNone args kwags.

End Effectful.

End handel_db_timeout.

(** ** The facade *)

(** The Flask application: only its [config] mapping is used. *)
Record Flask : Type := { config : gmap string pyval }.

Module CQLAlchemy.

Record t : Type := {
  app : option Flask;
  (** [None] while the attribute has not been assigned *)
  _hosts_ : option pyval;
  _keyspace_ : option pyval
}.

Definition State : Type := (t * World)%type.

Definition set_app (a : option Flask) (self : t) : t :=
  {| app := a; _hosts_ := _hosts_ self; _keyspace_ := _keyspace_ self |}.
Definition set_hosts (v : pyval) (self : t) : t :=
  {| app := app self; _hosts_ := Some v; _keyspace_ := _keyspace_ self |}.
Definition set_keyspace_attr (v : pyval) (self : t) : t :=
  {| app := app self; _hosts_ := _hosts_ self; _keyspace_ := Some v |}.

Definition on_self (f : t -> t) : M State unit :=
  modify (fun '(self, w) => (f self, w)).
Definition on_world (f : World -> World) : M State unit :=
  modify (fun '(self, w) => (self, f w)).
Definition self_ : M State t := fun st => (Returned (fst st), st).

(** The text [init_app] passes to [NoConfig]. *)
Definition NoConfig_message : string :=
  "No Configuration options defined.
            At least CASSANDRA_HOSTS and CASSANDRA_CONSISTENCY
            must be supplied".

(** [d[key]] *)
Definition getitem {S : Type} (d : gmap string pyval) (key : string) : M S pyval :=
  match d !! key with
  | Some v => ret v
  | None => raise (Exn KeyError key)
  end.

(** [d.get(key, dflt)] *)
Definition dict_get (d : gmap string pyval) (key : string) (dflt : pyval) : pyval :=
  default dflt (d !! key).

(** [type(v).__name__] *)
Definition type_name (v : pyval) : string :=
  match v with
  | PyNone => "NoneType"
  | PyBool _ => "bool"
  | PyInt _ => "int"
  | PyStr _ => "str"
  | PyList _ => "list"
  | PyDict _ => "dict"
  | PyType _ => "type"
  end.

(** The keywords the call in [init_app] passes by name. *)
Definition explicit_keywords : list string :=
  ["consistency"; "lazy_connect"; "retry_connect"].

(** [**v] in the call [connection.setup(..., consistency=..., lazy_connect=...,
    retry_connect=..., **v)]: [v] has to be a mapping, and none of its keys
    may repeat a keyword passed by name; the first key that does is
    reported.  Both failures are [TypeError]s raised before the driver is
    entered; their wording is CPython's and varies with its version. *)
Definition keywords_of (v : pyval) : result (list (string * pyval)) :=
  match v with
  | PyDict d =>
      match List.find (fun kv => existsb (String.eqb (fst kv)) explicit_keywords) d with
      | Some kv =>
          Raised (Exn TypeError
                    ("setup() got multiple values for keyword argument '"
                     +:+ fst kv +:+ "'"))
      | None => Returned d
      end
  | _ =>
      Raised (Exn TypeError
                ("setup() argument after ** must be a mapping, not "
                 +:+ type_name v))
  end.

Definition unpack {S : Type} (v : pyval) : M S (list (string * pyval)) :=
  fun s => (keywords_of v, s).

Section Driver.

(** [cassandra.cqlengine.connection.setup], the driver's entry point. *)
Variable connection_setup : SetupCall -> M World unit.

Definition call_setup (c : SetupCall) : M State unit :=
  fun '(self, w) => let '(r, w') := connection_setup c w in (r, (self, w')).

Definition init_app (a : Flask) : M State unit :=
  hosts <- getitem (config a) "CASSANDRA_HOSTS" ;;
  on_self (set_hosts hosts) ;;;
  keyspace <- getitem (config a) "CASSANDRA_KEYSPACE" ;;
  on_self (set_keyspace_attr keyspace) ;;;
  let consistency := dict_get (config a) "CASSANDRA_CONSISTENCY" (PyInt 1) in
  let lazy_connect := dict_get (config a) "CASSANDRA_LAZY_CONNECT" (PyBool false) in
  let retry_connect := dict_get (config a) "CASSANDRA_RETRY_CONNECT" (PyBool false) in
  let setup_kwargs := dict_get (config a) "CASSANDRA_SETUP_KWARGS" (PyDict []) in
  (* [not self._hosts_ and self._keyspace_] *)
  if negb (truthy hosts) && truthy keyspace
  then raise (Exn NoConfig NoConfig_message)
  else
    kwargs <- unpack setup_kwargs ;;
    call_setup {| setup_hosts := hosts;
                  setup_keyspace := keyspace;
                  setup_consistency := consistency;
                  setup_lazy_connect := lazy_connect;
                  setup_retry_connect := retry_connect;
                  setup_kwargs := kwargs |}.

Definition __init__ (a : option Flask) : M State unit :=
  on_self (set_app a) ;;;
  match a with
  | Some a' => init_app a'
  | None => ret tt
  end.

(** The object before [__init__] has assigned anything. *)
Definition blank : t := {| app := None; _hosts_ := None; _keyspace_ := None |}.

(** [CQLAlchemy(app)]: the caller gets the object only when [__init__]
    returns. *)
Definition new (a : option Flask) : M World t :=
  fun w =>
    match __init__ a (blank, w) with
    | (Returned _, (self, w')) => (Returned self, w')
    | (Raised e, (_, w')) => (Raised e, w')
    end.

End Driver.

Definition set_keyspace (keyspace_name : pyval) : M State unit :=
  keyspace_name <-
    (if negb (truthy keyspace_name)
     then
       self <- self_ ;;
       match app self with
       | None => raise (Exn AttributeError
                          "'NoneType' object has no attribute 'config'")
       | Some a => getitem (config a) "CASSANDRA_KEYSPACE"
       end
     else ret keyspace_name) ;;
  on_world (set_DEFAULT_KEYSPACE keyspace_name) ;;;
  on_self (set_keyspace_attr keyspace_name).

Section Sync.

(** [cassandra.cqlengine.management.sync_table]. *)
Variable sync_table : cls -> M World unit.

Definition call_sync_table (model : cls) : M State unit :=
  fun '(self, w) => let '(r, w') := sync_table model w in (r, (self, w')).

(** [for model in models: sync_table(model)] *)
Fixpoint sync_each (models : list cls) : M State unit :=
  match models with
  | [] => ret tt
  | model :: rest => call_sync_table model ;;; sync_each rest
  end.

(** [self.Model] is [models.Model]; its subclasses are looked up when the
    method runs. *)
Definition sync_db : M State unit :=
  fun '(self, w) => sync_each (get_subclasses (models_Model w)) (self, w).

End Sync.

End CQLAlchemy.

(** ** Dropping the keyspace and the tables *)

(** [with self as x: body]: [__enter__], the body, then [__exit__] however
    the body ended; [__exit__] returns [None], so an error raised in the
    body goes on to the caller.  The executor object is local to the block. *)
Definition with_executor {T : Type} (self : handel_db_timeout.t)
    (body : M handel_db_timeout.State T) : M World T :=
  fun w =>
    let '(r, (_, w')) :=
      (handel_db_timeout.__enter__ ;;;
       r <- attempt body ;;
       handel_db_timeout.__exit__ ;;;
       match r with
       | Returned v => ret v
       | Raised e => raise e
       end) (self, w) in
    (r, w').

Section Management.

(** [cassandra.cqlengine.management.drop_keyspace] and [drop_table]. *)
Variables drop_keyspace drop_table : Callable.

Definition drop_db (db : CQLAlchemy.t) : M World unit :=
  let dks := handel_db_timeout.__init__ drop_keyspace None false None None in
  match CQLAlchemy._keyspace_ db with
  | None => raise (Exn AttributeError
                     "'CQLAlchemy' object has no attribute '_keyspace_'")
  | Some keyspace =>
      with_executor dks (handel_db_timeout.execute [keyspace] []) ;;; ret tt
  end.

Fixpoint drop_each (models : list cls) : M World unit :=
  match models with
  | [] => ret tt
  | model :: rest =>
      let dt := handel_db_timeout.__init__ drop_table None false None None in
      with_executor dt (handel_db_timeout.execute [PyType model] []) ;;;
      drop_each rest
  end.

Definition drop_tables (db : CQLAlchemy.t) : M World unit :=
  w <- get ;;
  drop_each (get_subclasses (models_Model w)).

End Management.

(** ** The enumerator as the specification words it *)

(** If the type is abstract, enumerate each direct subclass in declaration
    order and concatenate the results; if it is concrete, the one-element
    sequence holding it. *)
Fixpoint reference_enumerate (c : cls) : list cls :=
  match c with
  | Class _ true subs =>
      (fix each (l : list cls) : list cls :=
         match l with
         | [] => []
         | s :: l' => (reference_enumerate s ++ each l')%list
         end) subs
  | Class _ false _ => [c]
  end.

(** Every class below [c] in the inheritance tree, parents before children. *)
Fixpoint descendants (c : cls) : list cls :=
  match c with
  | Class _ _ subs =>
      (fix each (l : list cls) : list cls :=
         match l with
         | [] => []
         | s :: l' => (s :: descendants s ++ each l')%list
         end) subs
  end.

(** The tree rooted at [c]: the class itself and everything below it. *)
Definition tree (c : cls) : list cls := c :: descendants c.

(** ** Observations on a run *)

(** Number of target-operation calls made so far. *)
Definition calls (w : World) : nat := length (invoked w).

(** The timeout of session [s] seen by each call, oldest first. *)
Definition timeouts_seen (s : sid) (w : World) : list pyval :=
  map (fun i => inv_timeouts i s) (invoked w).

(** The trace entry [execute] makes when it calls the target operation. *)
Definition entered (args : list pyval) (kwags : list (string * pyval))
    (w : World) : World :=
  record_invocation
    {| inv_args := args; inv_kwargs := kwags; inv_timeouts := default_timeout w |} w.

(** Where an executor's warning goes. *)
Definition emitted (self : handel_db_timeout.t) (mesg : string) (w : World) : World :=
  if handel_db_timeout.logger self then log_warning mesg w else print mesg w.

(** The executor once it has looked for a session. *)
Definition resolved (self : handel_db_timeout.t) (w : World) : handel_db_timeout.t :=
  match handel_db_timeout.session self with
  | Some _ => self
  | None => handel_db_timeout.set_session (connection_session w) self
  end.

(** The local variable [default_timeout] and the state at the end of an
    iteration whose call ended in the retryable error, in closed form. *)
Definition after_timeout (dt : pyval) (args : list pyval)
    (kwags : list (string * pyval)) (self : handel_db_timeout.t) (w : World)
    : pyval * handel_db_timeout.State :=
  let w1 := emitted self "Taking Longer to drop...." (entered args kwags w) in
  let self1 := resolved self w1 in
  match handel_db_timeout.session self1 with
  | Some s =>
      let dt1 := default_timeout w1 s in
      let w2 := set_default_timeout s (PyInt 100) w1 in
      (dt1, (self1, if truthy dt1 then set_default_timeout s dt1 w2 else w2))
  | None => (dt, (self1, w1))
  end.

(** The executor's operation, called in the world [w], ends in an error
    that [except self.error] catches. *)
Definition times_out (args : list pyval) (kwags : list (string * pyval))
    (self : handel_db_timeout.t) (w : World) : Prop :=
  exists e, handel_db_timeout.func self args kwags w = Raised e /\
            isinstance e (handel_db_timeout.error self) = true.

(** The outcome of running a method and the process state it ends in. *)
Definition outcome {T S : Type} (r : result T * (S * World)) : result T := r.1.
Definition final_world {T S : Type} (r : result T * (S * World)) : World := r.2.2.
Definition final_self {T S : Type} (r : result T * (S * World)) : S := r.2.1.

(** The session an executor works with once it has looked for one. *)
Definition handle (self : handel_db_timeout.t) (w : World) : option sid :=
  handel_db_timeout.session (resolved self w).

(** [w'] continues [w] with calls that all saw the timeouts of [w], and
    ends with those timeouts in place. *)
Definition timeouts_untouched (w w' : World) : Prop :=
  (forall s, default_timeout w' s = default_timeout w s) /\
  connection_session w' = connection_session w /\
  exists made,
    invoked w' = (invoked w ++ made)%list /\
    Forall (fun i => forall s, inv_timeouts i s = default_timeout w s) made.

Definition is_Returned {T : Type} (r : result T) : bool :=
  match r with Returned _ => true | Raised _ => false end.

(** ** Sample classes, operations and configurations *)

Definition Puppy : cls := Class "Puppy" false [].
Definition Dog : cls := Class "Dog" false [Puppy].
Definition Cat : cls := Class "Cat" false [].
Definition Animal : cls := Class "Animal" true [Dog; Cat].
(** [models.Model] is abstract; the application's models derive from it. *)
Definition Model_with_animals : cls := Class "Model" true [Animal].
(** A base whose tree holds abstract classes only. *)
Definition Shape : cls :=
  Class "Shape" true [Class "Polygon" true [Class "Quad" true []]; Class "Curve" true []].

(** A process with one connected session [0] whose default timeout is [t0]. *)
Definition world_with_timeout (t0 : pyval) (model : cls) : World :=
  {| DEFAULT_KEYSPACE := PyNone;
     models_Model := model;
     connection_session := Some 0%nat;
     default_timeout := fun _ => t0;
     invoked := [];
     logged := [];
     printed := [] |}.

Definition timed_out : exn := Exn OperationTimedOut "errors={}, last_host=127.0.0.1".
Definition invalid_request : exn := Exn (ExcClass "InvalidRequest" ["Exception"]) "unconfigured table".

(** An operation that times out on every call. *)
Definition always_times_out : Callable := fun _ _ _ => Raised timed_out.
(** An operation that succeeds on every call. *)
Definition always_succeeds : Callable := fun _ _ _ => Returned PyNone.
(** An operation that times out until it has been called [k - 1] times and
    returns [v] from then on. *)
Definition succeeds_on (k : nat) (v : pyval) : Callable :=
  fun _ _ w => if (calls w <? k - 1)%nat then Raised timed_out else Returned v.
(** An operation that fails with an error the executor does not retry. *)
Definition always_invalid : Callable := fun _ _ _ => Raised invalid_request.

(** A driver whose [connection.setup] succeeds and, as cqlengine does,
    records the keyspace as the default one. *)
Definition setup_succeeds : SetupCall -> M World unit :=
  fun c => modify (set_DEFAULT_KEYSPACE (setup_keyspace c)).

Definition hosts_value : pyval := PyList [PyStr "127.0.0.1"].

Definition app_with (entries : list (string * pyval)) : Flask :=
  {| config := list_to_map entries |}.

Definition app_ok : Flask :=
  app_with [("CASSANDRA_HOSTS", hosts_value); ("CASSANDRA_KEYSPACE", PyStr "test1")].
Definition app_empty_keyspace : Flask :=
  app_with [("CASSANDRA_HOSTS", hosts_value); ("CASSANDRA_KEYSPACE", PyStr "")].
Definition app_nothing_set : Flask :=
  app_with [("CASSANDRA_HOSTS", PyList []); ("CASSANDRA_KEYSPACE", PyStr "")].
Definition app_no_hosts_key : Flask :=
  app_with [("CASSANDRA_KEYSPACE", PyStr "test1")].

Definition world0 : World := world_with_timeout (PyInt 10) Model_with_animals.

(** [handel_db_timeout(op)], as [drop_db] and [drop_tables] build it. *)
Definition executor_for (op : Callable) : handel_db_timeout.t :=
  handel_db_timeout.__init__ op None false None None.

(** [handel_db_timeout(op, session=session)] for the connected session. *)
Definition executor_with_session (op : Callable) : handel_db_timeout.t :=
  handel_db_timeout.__init__ op None false (Some 0%nat) None.

(** The call [init_app] makes to [connection.setup]. *)
Definition setup_call_of (a : Flask) (hosts keyspace : pyval)
    (kwargs : list (string * pyval)) : SetupCall :=
  {| setup_hosts := hosts;
     setup_keyspace := keyspace;
     setup_consistency :=
       CQLAlchemy.dict_get (config a) "CASSANDRA_CONSISTENCY" (PyInt 1);
     setup_lazy_connect :=
       CQLAlchemy.dict_get (config a) "CASSANDRA_LAZY_CONNECT" (PyBool false);
     setup_retry_connect :=
       CQLAlchemy.dict_get (config a) "CASSANDRA_RETRY_CONNECT" (PyBool false);
     setup_kwargs := kwargs |}.

(** [db = CQLAlchemy(); db.init_app(app)] with the sample application. *)
Definition bound_by_init_app : CQLAlchemy.State :=
  (CQLAlchemy.init_app setup_succeeds app_ok (CQLAlchemy.blank, world0)).2.

(** ... followed by [db.set_keyspace("other")]. *)
Definition switched_to_other : CQLAlchemy.State :=
  (CQLAlchemy.set_keyspace (PyStr "other") bound_by_init_app).2.

(** [db = CQLAlchemy(app)] for an application whose keyspace setting is the
    empty string. *)
Definition constructed_with_empty_keyspace : CQLAlchemy.State :=
  ((CQLAlchemy.__init__ setup_succeeds (Some app_empty_keyspace)
      (CQLAlchemy.blank, world0)).2).

Definition no_config_attribute : exn :=
  Exn AttributeError "'NoneType' object has no attribute 'config'".

(** ** Further observations and samples *)

(** The state in which an iteration that leaves the loop ends: the call is
    in the trace and the [finally] clause has run. *)
Definition finished (dt : pyval) (args : list pyval)
    (kwags : list (string * pyval)) (self : handel_db_timeout.t) (w : World)
    : World :=
  match handel_db_timeout.session self with
  | Some s => if truthy dt
              then set_default_timeout s dt (entered args kwags w)
              else entered args kwags w
  | None => entered args kwags w
  end.

Definition is_concrete (c : cls) : bool := negb (__abstract__ c).

(** What a run from [w] to [w'] with the session [h] may have done: the
    module globals are as before, the trace has grown, and a session's
    default timeout is as before unless it is [h]'s and is now 100. *)
Definition touches_only (h : option sid) (w w' : World) : Prop :=
  DEFAULT_KEYSPACE w' = DEFAULT_KEYSPACE w /\
  models_Model w' = models_Model w /\
  connection_session w' = connection_session w /\
  (forall s, default_timeout w' s = default_timeout w s \/
             (h = Some s /\ default_timeout w' s = PyInt 100)) /\
  exists made, invoked w' = (invoked w ++ made)%list.

(** The warning [execute] emits when an attempt times out. *)
Definition taking_longer : string := "Taking Longer to drop....".

(** The outcome of one call of an operation from the state [w], and the
    state after it with the call in the trace. *)
Definition called (op : Operation) (args : list pyval)
    (kwags : list (string * pyval)) (w : World) : result pyval * World :=
  ((op args kwags w).1,
   set_invoked
     (invoked w ++ [{| inv_args := args; inv_kwargs := kwags;
                       inv_timeouts := default_timeout w |}])%list
     (op args kwags w).2).

(** The local [default_timeout] and the state when the [except] clause
    and then the [finally] clause have run from the state [st]. *)
Definition handled (dt : pyval) (st : handel_db_timeout.State)
    : pyval * handel_db_timeout.State :=
  match (dt' <- handel_db_timeout.on_timeout dt ;;
         handel_db_timeout.restore dt' ;;;
         ret dt')%py st with
  | (Returned dt', st') => (dt', st')
  | (Raised _, st') => (dt, st')
  end.

(** The local [default_timeout] and the state in which attempt [i + 1]
    starts, when the run starts in [st] with [dt] and the [i] attempts
    before it end in an error that is retried. *)
Fixpoint attempt_start (op : Operation) (args : list pyval)
    (kwags : list (string * pyval)) (i : nat) (dt : pyval)
    (st : handel_db_timeout.State) : pyval * handel_db_timeout.State :=
  match i with
  | O => (dt, st)
  | S i' =>
      let next := handled dt (st.1, (called op args kwags st.2).2) in
      attempt_start op args kwags i' next.1 next.2
  end.

(** The outcome of attempt [i + 1] of [execute_with op args kwags] started
    in [st]: what the operation does in the state that attempt meets. *)
Definition attempt_outcome (op : Operation) (args : list pyval)
    (kwags : list (string * pyval)) (st : handel_db_timeout.State) (i : nat)
    : result pyval :=
  (op args kwags (attempt_start op args kwags i PyNone st).2.2).1.

(** Whether [except self.error] catches the outcome. *)
Definition retried (self : handel_db_timeout.t) (r : result pyval) : bool :=
  match r with
  | Returned _ => false
  | Raised e => isinstance e (handel_db_timeout.error self)
  end.

(** The [except] and [finally] clauses in closed form, from the state [w]
    the call has left. *)
Definition after_handler (dt : pyval) (self : handel_db_timeout.t) (w : World)
    : pyval * handel_db_timeout.State :=
  let w1 := emitted self taking_longer w in
  let self1 := resolved self w1 in
  match handel_db_timeout.session self1 with
  | Some s =>
      let dt1 := default_timeout w1 s in
      let w2 := set_default_timeout s (PyInt 100) w1 in
      (dt1, (self1, if truthy dt1 then set_default_timeout s dt1 w2 else w2))
  | None => (dt, (self1, w1))
  end.

(** The [finally] clause in closed form, on the way out of the loop. *)
Definition left_with (dt : pyval) (self : handel_db_timeout.t) (w : World)
    : World :=
  match handel_db_timeout.session self with
  | Some s => if truthy dt then set_default_timeout s dt w else w
  | None => w
  end.

(** The operation assigns neither a session's default timeout nor
    [connection.session]. *)
Definition keeps_sessions (op : Operation) : Prop :=
  forall args kwags w,
    connection_session (op args kwags w).2 = connection_session w /\
    forall s, default_timeout (op args kwags w).2 s = default_timeout w s.

(** The operation assigns neither [models.DEFAULT_KEYSPACE] nor changes the
    model classes. *)
Definition keeps_keyspace_and_models (op : Operation) : Prop :=
  forall args kwags w,
    DEFAULT_KEYSPACE (op args kwags w).2 = DEFAULT_KEYSPACE w /\
    models_Model (op args kwags w).2 = models_Model w.

(** The operation writes neither to the logger nor to the standard output. *)
Definition keeps_outputs (op : Operation) : Prop :=
  forall args kwags w,
    logged (op args kwags w).2 = logged w /\
    printed (op args kwags w).2 = printed w.

(** An operation that returns once the default timeout of session [0] is
    100 and times out before. *)
Definition returns_when_elevated (v : pyval) : Operation :=
  fun _ _ w =>
    (match default_timeout w 0%nat with
     | PyInt z => if z =? 100 then Returned v else Raised timed_out
     | _ => Raised timed_out
     end,
     w).

(** An operation that returns and, doing so, prints a line and shortens
    the timeout of session [0]. *)
Definition chatty_success : Operation :=
  fun _ _ w => (Returned PyNone, set_default_timeout 0%nat (PyInt 5) (print "dropped" w)).

(** An operation that times out and prints a line of its own. *)
Definition chatty_timeout : Operation :=
  fun _ _ w => (Raised timed_out, print "waiting" w).

(** The calls made between [w] and a later state [w']. *)
Definition calls_since (w w' : World) : list Invocation :=
  skipn (calls w) (invoked w').

(** The warnings a run has produced: [k] copies of the message in the one
    sink the executor writes to, the other sink as before. *)
Definition warned (lg : bool) (k : nat) (w w' : World) : Prop :=
  if lg
  then logged w' = (logged w ++ repeat taking_longer k)%list /\ printed w' = printed w
  else printed w' = (printed w ++ repeat taking_longer k)%list /\ logged w' = logged w.

(** The state after one successful call per model, in order. *)
Definition all_entered (models : list cls) (w : World) : World :=
  fold_left (fun w1 model => entered [PyType model] [] w1) models w.

(** A [drop_table] that fails, with an error that is not retried, on the
    model called [bad] and succeeds on every other model. *)
Definition drop_fails_on (bad : string) : Callable :=
  fun args _ _ =>
    match args with
    | [PyType c] =>
        if String.eqb (__name__ c) bad then Raised invalid_request
        else Returned PyNone
    | _ => Returned PyNone
    end.

(** The state after [sync_table] has run on each model, in order. *)
Definition all_synced (sync_table : cls -> M World unit) (models : list cls)
    (w : World) : World :=
  fold_left (fun w1 model => (sync_table model w1).2) models w.

Definition no_keyspace_attribute : exn :=
  Exn AttributeError "'CQLAlchemy' object has no attribute '_keyspace_'".

(** [db = CQLAlchemy(app)] with the sample application. *)
Definition constructed_ok : CQLAlchemy.State :=
  (CQLAlchemy.__init__ setup_succeeds (Some app_ok) (CQLAlchemy.blank, world0)).2.

(** A tree whose concrete classes have no subclasses. *)
Definition Vehicle : cls :=
  Class "Vehicle" true
    [Class "Car" false [];
     Class "Boat" true [Class "Ferry" false []; Class "Raft" false []];
     Class "Plane" false []].

(** A [sync_table] that succeeds and, standing in for the schema change,
    prints the name of the model. *)
Definition sync_prints : cls -> M World unit :=
  fun model => modify (print (__name__ model)).

(** A [sync_table] that fails on the model called [bad]. *)
Definition sync_fails_on (bad : string) : cls -> M World unit :=
  fun model =>
    if String.eqb (__name__ model) bad
    then raise invalid_request
    else modify (print (__name__ model)).

(** * Properties *)

(** ** Subclass enumerator *)

Lemma flatten_cons {A : Type} (sublist : list A) (rest : list (list A)) :
  flatten (sublist :: rest) = (sublist ++ flatten rest)%list.
Proof.
  induction sublist as [|item l IH]; simpl; [reflexivity|].
  simpl in IH. now rewrite IH.
Qed.

Lemma flatten_concat {A : Type} (lists : list (list A)) :
  flatten lists = concat lists.
Proof.
  induction lists as [|sublist rest IH]; [reflexivity|].
  rewrite flatten_cons, IH. reflexivity.
Qed.

Lemma get_subclasses_unfold (c : cls) :
  get_subclasses c =
  if __abstract__ c then flatten (map get_subclasses (__subclasses__ c)) else [c].
Proof. destruct c; reflexivity. Qed.

Lemma flatten_all_nil {A : Type} (lists : list (list A)) :
  Forall (fun l => l = []) lists -> flatten lists = [].
Proof.
  induction 1 as [|l rest Hl _ IH]; [reflexivity|].
  rewrite flatten_cons, Hl, IH. reflexivity.
Qed.

(** C6: [get_subclasses] is the specification's reference function, and
    therefore a base type whose tree (the base itself included) holds no
    concrete class is enumerated as the empty sequence. *)
Theorem get_subclasses_is_reference (c : cls) :
  get_subclasses c = reference_enumerate c /\
  (Forall (fun d => __abstract__ d = true) (tree c) -> get_subclasses c = []).
Proof.
  induction c as [n a subs IH] using cls_ind_nested. split.
  - rewrite get_subclasses_unfold. simpl. destruct a; [|reflexivity].
    induction IH as [|s l [Hs _] _ IHl]; [reflexivity|].
    rewrite map_cons, flatten_cons, Hs, IHl. reflexivity.
  - intros Hall. rewrite get_subclasses_unfold.
    unfold tree in Hall. apply Forall_cons_1 in Hall as [Ha Hdesc].
    simpl in Ha. simpl __abstract__. simpl __subclasses__. rewrite Ha.
    apply flatten_all_nil. simpl in Hdesc.
    induction IH as [|s l [_ Hs] _ IHl]; [constructor|].
    apply Forall_cons_1 in Hdesc as [Hsa Hrest].
    apply Forall_app in Hrest as [Hds Hl].
    rewrite map_cons. constructor.
    + apply Hs. unfold tree. constructor; assumption.
    + apply IHl. exact Hl.
Qed.

(** [Shape] has an all-abstract tree: the enumeration is empty. *)
Lemma get_subclasses_is_reference_witness : get_subclasses Shape = [].
Proof.
  apply (proj2 (get_subclasses_is_reference Shape)).
  repeat constructor.
Defined.

(** C5: on the tree [Animal] (abstract) with [Dog] and [Cat] below it and
    [Puppy] below [Dog], the enumerator stops at the concrete class [Dog]:
    it yields [Dog; Cat], and [drop_tables] calls the drop operation for
    these two classes only. *)
Theorem get_subclasses_stops_at_concrete :
  get_subclasses Animal = [Dog; Cat] /\
  In Puppy (descendants Animal) /\ __abstract__ Puppy = false /\
  forall t0,
    let '(r, w') := drop_tables always_succeeds
                      {| CQLAlchemy.app := None; CQLAlchemy._hosts_ := None;
                         CQLAlchemy._keyspace_ := None |}
                      (world_with_timeout t0 Model_with_animals) in
    r = Returned tt /\
    map inv_args (invoked w') = [[PyType Dog]; [PyType Cat]] /\
    calls w' = 2%nat.
Proof.
  split; [reflexivity|]. split; [simpl; tauto|]. split; [reflexivity|].
  intros t0. vm_compute. repeat split.
Qed.

(** ** Retrying executor *)

Import handel_db_timeout.

(** [raise k] raises an instance of the class [k]. *)
Lemma exn_class_instantiate (k : exc_class) : exn_class (instantiate k) = k.
Proof. reflexivity. Qed.

Lemma bind_Returned {S T U : Type} (m : M S T) (k : T -> M S U) s v s' :
  m s = (Returned v, s') -> bind m k s = k v s'.
Proof. intros H. unfold bind. now rewrite H. Qed.

Lemma bind_Raised {S T U : Type} (m : M S T) (k : T -> M S U) s e s' :
  m s = (Raised e, s') -> bind m k s = (Raised e, s').
Proof. intros H. unfold bind. now rewrite H. Qed.

Lemma restore_run dt self w :
  restore dt (self, w) =
  (Returned tt,
   (self, match session self with
          | Some s => if truthy dt then set_default_timeout s dt w else w
          | None => w
          end)).
Proof.
  unfold restore, bind, self_. simpl.
  destruct (session self); [destruct (truthy dt)|]; reflexivity.
Qed.

(** Runs the body of the [try] statement of one iteration, given the
    outcome [Hf] of the call. *)
Ltac run_try_body Hf :=
  simpl loop; unfold bind at 1; unfold attempt, invoke; cbv beta iota;
  rewrite Hf; cbv beta iota.

(** Reads [self] in the continuation. *)
Ltac read_self := unfold bind at 1; unfold self_ at 1; cbv beta iota delta [fst].

(** A retryable failure: the iteration ends in the state [after_timeout]
    describes and the loop goes on. *)
Lemma loop_retry n dt args kwags self w e :
  func self args kwags w = Raised e ->
  isinstance e (error self) = true ->
  loop (S n) dt args kwags (self, w) =
  loop n (after_timeout dt args kwags self w).1 args kwags
         (after_timeout dt args kwags self w).2.
Proof.
  intros Hf He. run_try_body Hf. read_self. rewrite He.
  destruct self as [f tr lg ss er].
  unfold after_timeout, resolved, emitted, entered.
  unfold on_timeout, warning, bind, self_, on_world, modify, restore, ret.
  simpl.
  destruct lg, ss as [s|]; simpl;
    try destruct (connection_session w) as [s|]; simpl;
    try destruct (truthy (default_timeout w s)); reflexivity.
Qed.

(** A success: the [finally] clause runs and the value is returned. *)
Lemma loop_return n dt args kwags self w v :
  func self args kwags w = Returned v ->
  loop (S n) dt args kwags (self, w) =
  (Returned v,
   (self, match session self with
          | Some s => if truthy dt
                      then set_default_timeout s dt (entered args kwags w)
                      else entered args kwags w
          | None => entered args kwags w
          end)).
Proof.
  intros Hf. run_try_body Hf.
  unfold bind at 1. rewrite restore_run. reflexivity.
Qed.

(** Any other error: the [finally] clause runs and the error goes on. *)
Lemma loop_propagate n dt args kwags self w e :
  func self args kwags w = Raised e ->
  isinstance e (error self) = false ->
  loop (S n) dt args kwags (self, w) =
  (Raised e,
   (self, match session self with
          | Some s => if truthy dt
                      then set_default_timeout s dt (entered args kwags w)
                      else entered args kwags w
          | None => entered args kwags w
          end)).
Proof.
  intros Hf He. run_try_body Hf. read_self. rewrite He.
  unfold bind at 1. rewrite restore_run. reflexivity.
Qed.

Lemma calls_entered args kwags w : calls (entered args kwags w) = S (calls w).
Proof. unfold calls, entered. simpl. rewrite length_app. simpl. lia. Qed.

Lemma calls_set_default_timeout s v w : calls (set_default_timeout s v w) = calls w.
Proof. reflexivity. Qed.

Lemma after_timeout_self dt args kwags self w :
  let self' := (after_timeout dt args kwags self w).2.1 in
  func self' = func self /\ error self' = error self /\
  tries self' = tries self /\ logger self' = logger self.
Proof.
  unfold after_timeout, resolved, emitted.
  destruct self as [f tr lg ss er]; simpl.
  destruct ss as [s|]; simpl.
  - repeat split.
  - destruct lg; simpl; destruct (connection_session w); simpl; repeat split.
Qed.

Lemma after_timeout_calls dt args kwags self w :
  calls (after_timeout dt args kwags self w).2.2 = S (calls w).
Proof.
  pose proof (calls_entered args kwags w) as Hentered.
  unfold after_timeout, resolved, emitted.
  destruct self as [f tr lg ss er]; simpl.
  destruct lg, ss as [s|]; simpl;
    try destruct (connection_session w) as [s|]; simpl;
    try destruct (truthy (default_timeout w s)); exact Hentered.
Qed.

Section Attempts.

Variables (args : list pyval) (kwags : list (string * pyval)).

Lemma times_out_after dt self w w' :
  times_out args kwags self w' ->
  times_out args kwags (after_timeout dt args kwags self w).2.1 w'.
Proof.
  intros [e [Hf He]]. exists e.
  destruct (after_timeout_self dt args kwags self w) as [-> [-> _]].
  split; assumption.
Qed.

(** All [n] remaining attempts time out: [n] calls, then the error. *)
Lemma loop_exhausts n : forall dt self w,
  (forall w', (calls w <= calls w')%nat -> times_out args kwags self w') ->
  exists self' w',
    loop n dt args kwags (self, w)
      = (Raised (instantiate (error self)), (self', w')) /\
    calls w' = (calls w + n)%nat.
Proof.
  induction n as [|n IH]; intros dt self w Hall.
  - exists self, w. split; [reflexivity|lia].
  - destruct (Hall w (Nat.le_refl _)) as [e [Hf He]].
    rewrite (loop_retry n dt args kwags self w e Hf He).
    pose proof (after_timeout_self dt args kwags self w) as [_ [Herr _]].
    pose proof (after_timeout_calls dt args kwags self w) as Hcalls.
    destruct (after_timeout dt args kwags self w) as [dt1 [self1 w1]] eqn:Hafter.
    simpl in *.
    destruct (IH dt1 self1 w1) as [self' [w' [Hrun Hn]]].
    + intros w' Hle.
      replace self1 with (after_timeout dt args kwags self w).2.1
        by now rewrite Hafter.
      apply times_out_after, Hall. lia.
    + exists self', w'. rewrite Hrun, Herr. split; [reflexivity|lia].
Qed.

(** [j] attempts time out and the next one returns [v]: [j + 1] calls. *)
Lemma loop_succeeds j : forall n dt self w v,
  (j < n)%nat ->
  (forall w', (calls w <= calls w' < calls w + j)%nat -> times_out args kwags self w') ->
  (forall w', calls w' = (calls w + j)%nat -> func self args kwags w' = Returned v) ->
  exists self' w',
    loop n dt args kwags (self, w) = (Returned v, (self', w')) /\
    calls w' = (calls w + j + 1)%nat.
Proof.
  induction j as [|j IH]; intros n dt self w v Hlt Hfail Hok.
  - destruct n as [|n]; [lia|].
    rewrite (loop_return n dt args kwags self w v) by (apply Hok; lia).
    eexists _, _. split; [reflexivity|].
    destruct (session self); [destruct (truthy dt)|];
      rewrite ?calls_set_default_timeout, calls_entered; lia.
  - destruct n as [|n]; [lia|].
    destruct (Hfail w) as [e [Hf He]]; [lia|].
    rewrite (loop_retry n dt args kwags self w e Hf He).
    pose proof (after_timeout_self dt args kwags self w) as [Hfunc _].
    pose proof (after_timeout_calls dt args kwags self w) as Hcalls.
    destruct (after_timeout dt args kwags self w) as [dt1 [self1 w1]] eqn:Hafter.
    simpl in *.
    destruct (IH n dt1 self1 w1 v) as [self' [w' [Hrun Hn]]].
    + lia.
    + intros w' Hle.
      replace self1 with (after_timeout dt args kwags self w).2.1
        by now rewrite Hafter.
      apply times_out_after, Hfail. lia.
    + intros w' Hw'. rewrite Hfunc. apply Hok. lia.
    + exists self', w'. split; [exact Hrun|lia].
Qed.

End Attempts.

(** C7: when the executor makes at least one attempt and the first call
    ends in an error that [except self.error] does not catch, [execute]
    raises that very error; the operation has been called exactly once and
    nothing else in the process has changed. *)
Theorem execute_propagates_other_errors (self : t) (args : list pyval)
    (kwags : list (string * pyval)) (w : World) (e : exn) :
  0 < tries self ->
  func self args kwags w = Raised e ->
  isinstance e (error self) = false ->
  execute args kwags (self, w) = (Raised e, (self, entered args kwags w)) /\
  calls (entered args kwags w) = S (calls w).
Proof.
  intros Htries Hf He. split; [|apply calls_entered].
  unfold execute. read_self.
  destruct (Z.to_nat (tries self)) as [|n] eqn:Hn; [lia|].
  rewrite (loop_propagate n PyNone args kwags self w e Hf He).
  destruct (session self); reflexivity.
Qed.

(** An invalid request is not retried: one call, the same error. *)
Lemma execute_propagates_other_errors_witness :
  execute [PyStr "test1"] [] (executor_for always_invalid, world0)
    = (Raised invalid_request,
       (executor_for always_invalid, entered [PyStr "test1"] [] world0)) /\
  calls (entered [PyStr "test1"] [] world0) = 1%nat.
Proof.
  apply (execute_propagates_other_errors (executor_for always_invalid)
           [PyStr "test1"] [] world0 invalid_request).
  - simpl. lia.
  - reflexivity.
  - reflexivity.
Defined.

(** ** The timeout seen by the attempts when the original one is truthy *)

Lemma timeouts_untouched_entered args kwags w :
  timeouts_untouched w (entered args kwags w).
Proof.
  split; [reflexivity|]. split; [reflexivity|].
  eexists [_]. split; [reflexivity|]. constructor; [|constructor].
  reflexivity.
Qed.

Lemma timeouts_untouched_trans w1 w2 w3 :
  timeouts_untouched w1 w2 -> timeouts_untouched w2 w3 -> timeouts_untouched w1 w3.
Proof.
  intros [Ht12 [Hc12 [m12 [Hi12 Hf12]]]] [Ht23 [Hc23 [m23 [Hi23 Hf23]]]].
  split; [intros s; now rewrite Ht23|]. split; [congruence|].
  exists (m12 ++ m23)%list. split.
  - rewrite Hi23, Hi12. now rewrite <- app_assoc.
  - apply Forall_app. split; [exact Hf12|].
    eapply Forall_impl; [exact Hf23|]. simpl. intros i Hi s.
    now rewrite Hi, Ht12.
Qed.

Lemma timeouts_untouched_restore dt s w :
  (truthy dt = true -> dt = default_timeout w s) ->
  timeouts_untouched w (if truthy dt then set_default_timeout s dt w else w).
Proof.
  intros Hdt. split; [|split; [|exists []; split; [|constructor]]].
  - intros s'. destruct (truthy dt); [|reflexivity]. simpl.
    destruct (Nat.eqb_spec s' s) as [->|]; [now apply Hdt|reflexivity].
  - now destruct (truthy dt).
  - destruct (truthy dt); simpl; now rewrite app_nil_r.
Qed.

(** One timed-out iteration, when the session's timeout is truthy: the
    elevation to 100 is undone before the iteration ends. *)
Lemma after_timeout_truthy dt args kwags self w :
  (forall s, handle self w = Some s -> truthy (default_timeout w s) = true) ->
  (truthy dt = true ->
   exists s, session self = Some s /\ dt = default_timeout w s) ->
  let dt' := (after_timeout dt args kwags self w).1 in
  let self' := (after_timeout dt args kwags self w).2.1 in
  let w' := (after_timeout dt args kwags self w).2.2 in
  timeouts_untouched w w' /\
  handle self' w' = handle self w /\
  (truthy dt' = true ->
   exists s, session self' = Some s /\ dt' = default_timeout w' s).
Proof.
  intros Htruthy Hdt.
  unfold handle, after_timeout, resolved, emitted, entered in *.
  destruct self as [f tr lg ss er]; simpl in *.
  destruct ss as [s|]; simpl in *.
  - destruct lg; simpl; rewrite (Htruthy s eq_refl); simpl.
    all: split; [|split; [reflexivity|]].
    all: try (intros _; exists s; split; [reflexivity|]; simpl;
              now rewrite Nat.eqb_refl).
    all: split; [|split; [reflexivity|]].
    all: try (intros s'; simpl;
              destruct (Nat.eqb_spec s' s) as [->|]; reflexivity).
    all: eexists [_]; split; [reflexivity|]; repeat constructor.
  - destruct (connection_session w) as [s|] eqn:Hcs.
    + destruct lg; simpl; rewrite Hcs; simpl; rewrite (Htruthy s eq_refl); simpl.
      all: split; [|split; [reflexivity|]].
      all: try (intros _; exists s; split; [reflexivity|]; simpl;
                now rewrite Nat.eqb_refl).
      all: split; [|split; [reflexivity|]].
      all: try (intros s'; simpl;
                destruct (Nat.eqb_spec s' s) as [->|]; reflexivity).
      all: eexists [_]; split; [reflexivity|]; repeat constructor.
    + destruct lg; simpl; rewrite Hcs; simpl.
      all: split; [|split; [now rewrite ?Hcs|]].
      all: try (intros Ht; destruct (Hdt Ht) as [s [Hs _]]; discriminate).
      all: split; [reflexivity|]; split; [reflexivity|].
      all: eexists [_]; split; [reflexivity|]; repeat constructor.
Qed.

Lemma timeouts_untouched_refl w : timeouts_untouched w w.
Proof.
  split; [reflexivity|]. split; [reflexivity|].
  exists []. split; [now rewrite app_nil_r|constructor].
Qed.

Lemma timeouts_untouched_finally dt args kwags self w :
  (truthy dt = true ->
   exists s, session self = Some s /\ dt = default_timeout w s) ->
  timeouts_untouched w
    match session self with
    | Some s => if truthy dt
                then set_default_timeout s dt (entered args kwags w)
                else entered args kwags w
    | None => entered args kwags w
    end.
Proof.
  intros Hdt.
  destruct (session self) as [s|]; [|apply timeouts_untouched_entered].
  eapply timeouts_untouched_trans; [apply timeouts_untouched_entered|].
  apply timeouts_untouched_restore. intros Ht.
  destruct (Hdt Ht) as [s' [[= ->] ->]]. reflexivity.
Qed.

(** Whatever the operation does, a loop started with a truthy session
    timeout makes every call with that timeout and ends with it. *)
Lemma loop_truthy_timeout args kwags n : forall dt self w,
  (forall s, handle self w = Some s -> truthy (default_timeout w s) = true) ->
  (truthy dt = true ->
   exists s, session self = Some s /\ dt = default_timeout w s) ->
  timeouts_untouched w (final_world (loop n dt args kwags (self, w))).
Proof.
  induction n as [|n IH]; intros dt self w Htruthy Hdt.
  - apply timeouts_untouched_refl.
  - destruct (func self args kwags w) as [v|e] eqn:Hf.
    + rewrite (loop_return n dt args kwags self w v Hf).
      now apply timeouts_untouched_finally.
    + destruct (isinstance e (error self)) eqn:He.
      * rewrite (loop_retry n dt args kwags self w e Hf He).
        destruct (after_timeout_truthy dt args kwags self w Htruthy Hdt)
          as [Hkept [Hhandle Hdt']].
        destruct (after_timeout dt args kwags self w) as [dt1 [self1 w1]].
        simpl in *.
        eapply timeouts_untouched_trans; [exact Hkept|].
        apply IH; [|exact Hdt'].
        intros s Hs. destruct Hkept as [Hsame _]. rewrite Hsame.
        apply Htruthy. congruence.
      * rewrite (loop_propagate n dt args kwags self w e Hf He).
        now apply timeouts_untouched_finally.
Qed.

(** For [execute]: when the session the executor works with has a truthy
    default timeout, every attempt is made with that timeout (never with
    100), and it is in place when [execute] ends, however it ends. *)
Lemma execute_truthy_timeout self args kwags w :
  (forall s, handle self w = Some s -> truthy (default_timeout w s) = true) ->
  timeouts_untouched w (final_world (execute args kwags (self, w))).
Proof.
  intros Htruthy. unfold execute. read_self.
  apply loop_truthy_timeout; [exact Htruthy|]. discriminate.
Qed.

(** C2: with a session whose default timeout is 10, the first attempt
    times out, the handler assigns 100 and the [finally] clause of the same
    iteration assigns 10 again: the second attempt is made with a default
    timeout of 10, whether the session was passed in or looked up. *)
Theorem second_attempt_sees_original_timeout :
  let passed := execute [PyStr "test1"] []
                  (executor_with_session always_times_out, world0) in
  let looked_up := execute [PyStr "test1"] []
                     (executor_for always_times_out, world0) in
  outcome passed = Raised (instantiate OperationTimedOut) /\
  timeouts_seen 0%nat (final_world passed) = [PyInt 10; PyInt 10] /\
  outcome looked_up = Raised (instantiate OperationTimedOut) /\
  timeouts_seen 0%nat (final_world looked_up) = [PyInt 10; PyInt 10].
Proof. vm_compute. repeat split. Qed.

(** C3: with a session whose default timeout is [None] (or 0), a timed-out
    attempt leaves the session at 100: the [finally] clause skips the
    assignment because the recorded value is falsy.  The run ends with a
    default timeout of 100, both when it raises and when a later attempt
    succeeds. *)
Theorem falsy_timeout_is_not_restored :
  let w_none := world_with_timeout PyNone Model_with_animals in
  let w_zero := world_with_timeout (PyInt 0) Model_with_animals in
  let raising := execute [PyStr "test1"] []
                   (executor_with_session always_times_out, w_none) in
  let returning := execute [PyStr "test1"] []
                     (executor_with_session (succeeds_on 2 PyNone), w_none) in
  let raising_zero := execute [PyStr "test1"] []
                        (executor_with_session always_times_out, w_zero) in
  default_timeout w_none 0%nat = PyNone /\
  outcome raising = Raised (instantiate OperationTimedOut) /\
  default_timeout (final_world raising) 0%nat = PyInt 100 /\
  outcome returning = Returned PyNone /\
  default_timeout (final_world returning) 0%nat = PyInt 100 /\
  default_timeout w_zero 0%nat = PyInt 0 /\
  default_timeout (final_world raising_zero) 0%nat = PyInt 100.
Proof. vm_compute. repeat split. Qed.

(** ** Facade *)

Section Binding.

Variable connection_setup : SetupCall -> M World unit.

(** [init_app] in closed form, one case per way it can end. *)
Lemma init_app_run (a : Flask) (f : CQLAlchemy.t) (w : World) :
  CQLAlchemy.init_app connection_setup a (f, w) =
  match config a !! "CASSANDRA_HOSTS" with
  | None => (Raised (Exn KeyError "CASSANDRA_HOSTS"), (f, w))
  | Some hosts =>
      match config a !! "CASSANDRA_KEYSPACE" with
      | None => (Raised (Exn KeyError "CASSANDRA_KEYSPACE"),
                 (CQLAlchemy.set_hosts hosts f, w))
      | Some keyspace =>
          let f' := CQLAlchemy.set_keyspace_attr keyspace
                      (CQLAlchemy.set_hosts hosts f) in
          if negb (truthy hosts) && truthy keyspace
          then (Raised (Exn NoConfig CQLAlchemy.NoConfig_message), (f', w))
          else
            match CQLAlchemy.keywords_of
                    (CQLAlchemy.dict_get (config a) "CASSANDRA_SETUP_KWARGS"
                       (PyDict [])) with
            | Returned d =>
                ((connection_setup (setup_call_of a hosts keyspace d) w).1,
                 (f', (connection_setup (setup_call_of a hosts keyspace d) w).2))
            | Raised e => (Raised e, (f', w))
            end
      end
  end.
Proof.
  unfold CQLAlchemy.init_app, CQLAlchemy.getitem, bind.
  destruct (config a !! "CASSANDRA_HOSTS") as [hosts|]; [|reflexivity].
  simpl.
  destruct (config a !! "CASSANDRA_KEYSPACE") as [keyspace|]; [|reflexivity].
  simpl.
  destruct (negb (truthy hosts) && truthy keyspace); [reflexivity|].
  unfold CQLAlchemy.unpack, CQLAlchemy.call_setup, setup_call_of.
  destruct (CQLAlchemy.keywords_of _) as [d|e]; simpl; [|reflexivity].
  destruct (connection_setup _ w); reflexivity.
Qed.

(** [init_app] never assigns [self.app]. *)
Lemma init_app_keeps_app (a : Flask) (f : CQLAlchemy.t) (w : World) :
  CQLAlchemy.app (CQLAlchemy.init_app connection_setup a (f, w)).2.1 = CQLAlchemy.app f.
Proof.
  rewrite init_app_run.
  destruct (config a !! "CASSANDRA_HOSTS") as [hosts|]; [|reflexivity].
  destruct (config a !! "CASSANDRA_KEYSPACE") as [keyspace|]; [|reflexivity].
  cbv zeta.
  destruct (negb (truthy hosts) && truthy keyspace); [reflexivity|].
  destruct (CQLAlchemy.keywords_of _); reflexivity.
Qed.

(** When [init_app] returns, both required keys were present and the
    facade holds the configured keyspace. *)
Lemma init_app_returned (a : Flask) (f f' : CQLAlchemy.t) (w w' : World) :
  CQLAlchemy.init_app connection_setup a (f, w) = (Returned tt, (f', w')) ->
  exists hosts keyspace,
    config a !! "CASSANDRA_HOSTS" = Some hosts /\
    config a !! "CASSANDRA_KEYSPACE" = Some keyspace /\
    negb (truthy hosts) && truthy keyspace = false /\
    f' = CQLAlchemy.set_keyspace_attr keyspace (CQLAlchemy.set_hosts hosts f).
Proof.
  rewrite init_app_run.
  destruct (config a !! "CASSANDRA_HOSTS") as [hosts|]; [|discriminate].
  destruct (config a !! "CASSANDRA_KEYSPACE") as [keyspace|]; [|discriminate].
  cbv zeta.
  destruct (negb (truthy hosts) && truthy keyspace) eqn:Hguard; [discriminate|].
  destruct (CQLAlchemy.keywords_of _); [|discriminate].
  intros H. injection H as _ Hf _. exists hosts, keyspace. auto.
Qed.

(** [set_keyspace] with a falsy argument on a facade that holds an
    application whose configuration has the keyspace entry. *)
Lemma set_keyspace_falsy (f : CQLAlchemy.t) (w : World) (a : Flask)
    (keyspace v : pyval) :
  CQLAlchemy.app f = Some a ->
  config a !! "CASSANDRA_KEYSPACE" = Some keyspace ->
  truthy v = false ->
  CQLAlchemy.set_keyspace v (f, w) =
  (Returned tt, (CQLAlchemy.set_keyspace_attr keyspace f,
                 set_DEFAULT_KEYSPACE keyspace w)).
Proof.
  intros Happ Hks Hv.
  unfold CQLAlchemy.set_keyspace, bind, CQLAlchemy.self_, CQLAlchemy.getitem.
  rewrite Hv. simpl. rewrite Happ, Hks. reflexivity.
Qed.

(** [set_keyspace] with a truthy argument needs nothing from the facade. *)
Lemma set_keyspace_truthy (f : CQLAlchemy.t) (w : World) (v : pyval) :
  truthy v = true ->
  CQLAlchemy.set_keyspace v (f, w) =
  (Returned tt, (CQLAlchemy.set_keyspace_attr v f, set_DEFAULT_KEYSPACE v w)).
Proof.
  intros Hv. unfold CQLAlchemy.set_keyspace, bind. rewrite Hv. reflexivity.
Qed.

(** [set_keyspace] with a falsy argument on a facade without application. *)
Lemma set_keyspace_no_app (f : CQLAlchemy.t) (w : World) (v : pyval) :
  CQLAlchemy.app f = None ->
  truthy v = false ->
  CQLAlchemy.set_keyspace v (f, w) =
  (Raised (Exn AttributeError "'NoneType' object has no attribute 'config'"),
   (f, w)).
Proof.
  intros Happ Hv.
  unfold CQLAlchemy.set_keyspace, bind, CQLAlchemy.self_.
  rewrite Hv. simpl. rewrite Happ. reflexivity.
Qed.

End Binding.

(** C4: [init_app] guards the connection with
    [not self._hosts_ and self._keyspace_].  With hosts present and an empty
    keyspace it raises nothing and connects; with both settings falsy it
    connects as well; with the hosts key missing the lookup raises
    [KeyError] before the guard is reached.  None of the three raises
    [NoConfig]. *)
Theorem init_app_guard_lets_empty_keyspace_through :
  let bind a := CQLAlchemy.init_app setup_succeeds a (CQLAlchemy.blank, world0) in
  outcome (bind app_empty_keyspace) = Returned tt /\
  CQLAlchemy._keyspace_ (final_self (bind app_empty_keyspace)) = Some (PyStr "") /\
  outcome (bind app_nothing_set) = Returned tt /\
  outcome (bind app_no_hosts_key) = Raised (Exn KeyError "CASSANDRA_HOSTS") /\
  outcome (bind app_ok) = Returned tt /\
  CQLAlchemy._keyspace_ (final_self (bind app_ok)) = Some (PyStr "test1").
Proof. vm_compute. repeat split. Qed.

(** Unpacking the extra keywords fails with a [TypeError] only. *)
Lemma keywords_of_raises (v : pyval) (e : exn) :
  CQLAlchemy.keywords_of v = Raised e -> exn_class e = TypeError.
Proof.
  unfold CQLAlchemy.keywords_of.
  destruct v; try (intros [= <-]; reflexivity).
  destruct (find _ d); intros [= <-]. reflexivity.
Qed.

(** Unless the driver itself raises it, [NoConfig] is raised exactly when
    both keys are present, the hosts value is falsy and the keyspace value
    is truthy. *)
Lemma init_app_NoConfig_iff (connection_setup : SetupCall -> M World unit)
    (a : Flask) (f : CQLAlchemy.t) (w : World) :
  (forall c w0 e, (connection_setup c w0).1 = Raised e -> exn_class e <> NoConfig) ->
  (exists msg, outcome (CQLAlchemy.init_app connection_setup a (f, w))
               = Raised (Exn NoConfig msg)) <->
  (exists hosts keyspace,
     config a !! "CASSANDRA_HOSTS" = Some hosts /\
     config a !! "CASSANDRA_KEYSPACE" = Some keyspace /\
     truthy hosts = false /\ truthy keyspace = true).
Proof.
  intros Hdriver. rewrite init_app_run. unfold outcome. split.
  - intros [msg Hraised].
    destruct (config a !! "CASSANDRA_HOSTS") as [hosts|]; [|discriminate].
    destruct (config a !! "CASSANDRA_KEYSPACE") as [keyspace|]; [|discriminate].
    cbv zeta in Hraised.
    destruct (negb (truthy hosts) && truthy keyspace) eqn:Hguard.
    + exists hosts, keyspace. apply andb_prop in Hguard as [Hh Hk].
      apply negb_true_iff in Hh. auto.
    + exfalso.
      destruct (CQLAlchemy.keywords_of _) as [d|e] eqn:Hkw; simpl in Hraised.
      * now apply Hdriver in Hraised.
      * apply keywords_of_raises in Hkw. injection Hraised as ->.
        discriminate.
  - intros [hosts [keyspace [-> [-> [Hh Hk]]]]]. cbv zeta.
    rewrite Hh, Hk. simpl. eauto.
Qed.

(** C8: a facade built without an application and then bound with
    [init_app] can switch to another keyspace, but the call without
    argument that should switch back raises [AttributeError]; the
    process-wide default and the facade's field stay at ["other"]. *)
Theorem set_keyspace_cannot_reset_after_init_app :
  CQLAlchemy.new setup_succeeds None world0 = (Returned CQLAlchemy.blank, world0) /\
  CQLAlchemy.init_app setup_succeeds app_ok (CQLAlchemy.blank, world0)
    = (Returned tt, bound_by_init_app) /\
  CQLAlchemy.set_keyspace (PyStr "other") bound_by_init_app
    = (Returned tt, switched_to_other) /\
  DEFAULT_KEYSPACE switched_to_other.2 = PyStr "other" /\
  CQLAlchemy._keyspace_ switched_to_other.1 = Some (PyStr "other") /\
  CQLAlchemy.set_keyspace PyNone switched_to_other
    = (Raised no_config_attribute, switched_to_other) /\
  CQLAlchemy.set_keyspace PyNone bound_by_init_app
    = (Raised no_config_attribute, bound_by_init_app).
Proof. repeat split; vm_compute; reflexivity. Qed.

(** C9: a facade created by [CQLAlchemy()] and bound by a successful
    [init_app] has no application object, and [set_keyspace()] on it
    raises [AttributeError] and changes nothing; a facade created by
    [CQLAlchemy(app)] resets both the process-wide default and its own
    field to the configured keyspace; and whenever [set_keyspace()]
    returns, the facade holds an application object, which [init_app]
    never supplies. *)
Theorem set_keyspace_reset_needs_constructor_app
    (connection_setup : SetupCall -> M World unit) (a : Flask) (w : World) :
  (forall f1 w1 f2 w2,
     CQLAlchemy.new connection_setup None w = (Returned f1, w1) ->
     CQLAlchemy.init_app connection_setup a (f1, w1) = (Returned tt, (f2, w2)) ->
     CQLAlchemy.app f2 = None /\
     CQLAlchemy.set_keyspace PyNone (f2, w2) = (Raised no_config_attribute, (f2, w2)))
  /\
  (forall f w',
     CQLAlchemy.new connection_setup (Some a) w = (Returned f, w') ->
     exists keyspace,
       config a !! "CASSANDRA_KEYSPACE" = Some keyspace /\
       CQLAlchemy.set_keyspace PyNone (f, w')
         = (Returned tt, (CQLAlchemy.set_keyspace_attr keyspace f,
                          set_DEFAULT_KEYSPACE keyspace w')))
  /\
  (forall f w',
     is_Returned (outcome (CQLAlchemy.set_keyspace PyNone (f, w'))) = true ->
     CQLAlchemy.app f <> None)
  /\
  (forall f w', CQLAlchemy.app (CQLAlchemy.init_app connection_setup a (f, w')).2.1
                = CQLAlchemy.app f).
Proof.
  split; [|split; [|split]].
  - intros f1 w1 f2 w2 Hnew Hbound.
    assert (Happ1 : CQLAlchemy.app f1 = None).
    { unfold CQLAlchemy.new in Hnew. simpl in Hnew. now inversion Hnew. }
    assert (Happ2 : CQLAlchemy.app f2 = None).
    { pose proof (init_app_keeps_app connection_setup a f1 w1) as Hkeep.
      rewrite Hbound in Hkeep. simpl in Hkeep. congruence. }
    split; [exact Happ2|].
    now apply set_keyspace_no_app.
  - intros f w' Hnew. unfold CQLAlchemy.new, CQLAlchemy.__init__ in Hnew.
    unfold bind in Hnew. simpl in Hnew.
    pose proof (init_app_keeps_app connection_setup a
                  (CQLAlchemy.set_app (Some a) CQLAlchemy.blank) w) as Hkeep.
    destruct (CQLAlchemy.init_app connection_setup a
                (CQLAlchemy.set_app (Some a) CQLAlchemy.blank, w))
      as [[[]|e] [f' w'']] eqn:Hbound; [|discriminate].
    inversion Hnew; subst f' w''. simpl in Hkeep.
    apply init_app_returned in Hbound as [hosts [keyspace [_ [Hks [_ Hf]]]]].
    exists keyspace. split; [exact Hks|].
    now apply (set_keyspace_falsy f w' a).
  - intros f w' Hret Happ.
    rewrite (set_keyspace_no_app f w' PyNone Happ eq_refl) in Hret.
    discriminate.
  - intros f w'. apply init_app_keeps_app.
Qed.

(** The sample application: bound by [init_app] the reset raises, passed to
    the constructor it puts ["test1"] back. *)
Lemma set_keyspace_reset_needs_constructor_app_witness :
  CQLAlchemy.set_keyspace PyNone bound_by_init_app
    = (Raised no_config_attribute, bound_by_init_app) /\
  exists f w',
    CQLAlchemy.new setup_succeeds (Some app_ok) world0 = (Returned f, w') /\
    DEFAULT_KEYSPACE
      (final_world (CQLAlchemy.set_keyspace PyNone
                      (CQLAlchemy.set_keyspace (PyStr "other") (f, w')).2))
      = PyStr "test1".
Proof.
  split.
  - apply (proj1 (set_keyspace_reset_needs_constructor_app
                    setup_succeeds app_ok world0)
             CQLAlchemy.blank world0); vm_compute; reflexivity.
  - eexists _, _. split; [vm_compute; reflexivity|]. vm_compute. reflexivity.
Defined.

(** C10: [CQLAlchemy(app)] accepts an application whose keyspace setting is
    the empty string, because the guard of [init_app] lets it through; on
    that facade [set_keyspace("")] resets to the configured value and so
    assigns the empty string to the process-wide default and to the
    facade's field. *)
Theorem set_keyspace_sets_empty_configured_keyspace :
  CQLAlchemy.__init__ setup_succeeds (Some app_empty_keyspace)
    (CQLAlchemy.blank, world0) = (Returned tt, constructed_with_empty_keyspace) /\
  CQLAlchemy.app constructed_with_empty_keyspace.1 = Some app_empty_keyspace /\
  outcome (CQLAlchemy.set_keyspace (PyStr "") constructed_with_empty_keyspace)
    = Returned tt /\
  DEFAULT_KEYSPACE
    (final_world (CQLAlchemy.set_keyspace (PyStr "") constructed_with_empty_keyspace))
    = PyStr "" /\
  CQLAlchemy._keyspace_
    (final_self (CQLAlchemy.set_keyspace (PyStr "") constructed_with_empty_keyspace))
    = Some (PyStr "").
Proof. repeat split; vm_compute; reflexivity. Qed.

(** On a facade that holds an application whose configuration has a
    keyspace entry, [set_keyspace] with any falsy argument does what
    [set_keyspace()] does: the process-wide default and the facade's field
    both become the configured value; when that value is truthy, as the
    guard of [init_app] is meant to ensure, neither becomes the empty
    string. *)
Theorem set_keyspace_falsy_is_reset (f : CQLAlchemy.t) (w : World) (a : Flask)
    (keyspace v : pyval) :
  CQLAlchemy.app f = Some a ->
  config a !! "CASSANDRA_KEYSPACE" = Some keyspace ->
  truthy v = false ->
  CQLAlchemy.set_keyspace v (f, w) = CQLAlchemy.set_keyspace PyNone (f, w) /\
  outcome (CQLAlchemy.set_keyspace v (f, w)) = Returned tt /\
  DEFAULT_KEYSPACE (final_world (CQLAlchemy.set_keyspace v (f, w))) = keyspace /\
  CQLAlchemy._keyspace_ (final_self (CQLAlchemy.set_keyspace v (f, w)))
    = Some keyspace /\
  (truthy keyspace = true ->
   DEFAULT_KEYSPACE (final_world (CQLAlchemy.set_keyspace v (f, w))) <> PyStr "" /\
   CQLAlchemy._keyspace_ (final_self (CQLAlchemy.set_keyspace v (f, w)))
     <> Some (PyStr "")).
Proof.
  intros Happ Hks Hv.
  rewrite (set_keyspace_falsy f w a keyspace v Happ Hks Hv).
  rewrite (set_keyspace_falsy f w a keyspace PyNone Happ Hks eq_refl).
  repeat split.
  - simpl. intros ->. discriminate.
  - simpl. intros [= ->]. discriminate.
Qed.

(** The sample application passed to the constructor, then
    [set_keyspace("")]: the keyspace is ["test1"] again. *)
Lemma set_keyspace_falsy_is_reset_witness :
  let db := (CQLAlchemy.__init__ setup_succeeds (Some app_ok)
               (CQLAlchemy.blank, world0)).2 in
  let switched := (CQLAlchemy.set_keyspace (PyStr "other") db).2 in
  DEFAULT_KEYSPACE switched.2 = PyStr "other" /\
  DEFAULT_KEYSPACE (final_world (CQLAlchemy.set_keyspace (PyStr "") switched))
    = PyStr "test1" /\
  DEFAULT_KEYSPACE (final_world (CQLAlchemy.set_keyspace (PyStr "") switched))
    <> PyStr "".
Proof.
  intros db switched.
  destruct (set_keyspace_falsy_is_reset switched.1 switched.2 app_ok
              (PyStr "test1") (PyStr ""))
    as [_ [_ [Hdefault [_ Hnonempty]]]];
    [vm_compute; reflexivity | vm_compute; reflexivity | reflexivity |].
  split; [vm_compute; reflexivity|]. split.
  - exact Hdefault.
  - apply Hnonempty. reflexivity.
Defined.

(** * Further properties *)

(** ** The enumerator *)

(** X1: [flatten] keeps every item, in order: the result is the sublists
    laid end to end, first sublist first, each in its own order.  So it
    distributes over appending the outer list, an item is in the result
    exactly when it is in one of the sublists, and the length is the sum
    of the sublists' lengths. *)
Theorem flatten_keeps_items {A : Type} :
  (forall lists : list (list A),
     flatten lists = fold_right (fun sublist rest => sublist ++ rest)%list [] lists) /\
  (forall l1 l2 : list (list A),
     flatten (l1 ++ l2) = (flatten l1 ++ flatten l2)%list) /\
  (forall (lists : list (list A)) (x : A),
     In x (flatten lists) <-> exists sublist, In sublist lists /\ In x sublist) /\
  (forall lists : list (list A),
     length (flatten lists) = list_sum (map length lists)).
Proof.
  split; [|split; [|split]].
  - intros lists. induction lists as [|l rest IH]; [reflexivity|].
    rewrite flatten_cons, IH. reflexivity.
  - intros l1 l2. rewrite !flatten_concat. apply concat_app.
  - intros lists x. rewrite flatten_concat, in_concat. reflexivity.
  - intros lists. rewrite flatten_concat.
    induction lists as [|l rest IH]; [reflexivity|].
    simpl. rewrite length_app, IH. reflexivity.
Qed.

Lemma descendants_unfold n a subs :
  descendants (Class n a subs) = concat (map tree subs).
Proof.
  simpl. induction subs as [|s rest IH]; [reflexivity|].
  simpl. unfold tree at 1. simpl. now rewrite IH.
Qed.

Lemma tree_sub n a subs s d :
  In s subs -> In d (tree s) -> In d (tree (Class n a subs)).
Proof.
  intros Hs Hd. unfold tree at 1. right. rewrite descendants_unfold.
  apply in_concat. exists (tree s). split; [|exact Hd].
  apply in_map_iff. now exists s.
Qed.

(** X2: Every class [get_subclasses] returns is concrete and belongs to the
    tree it was asked about. *)
Theorem get_subclasses_sound (c d : cls) :
  In d (get_subclasses c) -> __abstract__ d = false /\ In d (tree c).
Proof.
  revert d. induction c as [n a subs IH] using cls_ind_nested. intros d.
  rewrite get_subclasses_unfold. simpl. destruct a.
  - rewrite flatten_concat, in_concat. intros [l [Hl Hd]].
    apply in_map_iff in Hl as [s [<- Hs]].
    rewrite List.Forall_forall in IH.
    destruct (IH s Hs d Hd) as [Habs Htree].
    split; [exact Habs|]. now apply (tree_sub n true subs s).
  - intros [<-|[]]. split; [reflexivity|]. now left.
Qed.

(** X3: When no concrete class of the tree has subclasses, [get_subclasses]
    returns exactly the concrete classes of the tree, parents' order kept. *)
Theorem get_subclasses_complete_on_leaves (c : cls) :
  (forall d, In d (tree c) -> __abstract__ d = false -> __subclasses__ d = []) ->
  get_subclasses c = List.filter is_concrete (tree c).
Proof.
  induction c as [n a subs IH] using cls_ind_nested. intros Hleaves.
  rewrite get_subclasses_unfold. simpl __abstract__. simpl __subclasses__.
  destruct a.
  - unfold tree. rewrite descendants_unfold, flatten_concat.
    change (List.filter is_concrete (Class n true subs :: concat (map tree subs)))
      with (List.filter is_concrete (concat (map tree subs))).
    assert (Hsubs : forall s, In s subs ->
              get_subclasses s = List.filter is_concrete (tree s)).
    { intros s Hs. rewrite List.Forall_forall in IH. apply IH; [exact Hs|].
      intros d Hd. apply Hleaves. now apply (tree_sub n true subs s). }
    clear IH Hleaves. induction subs as [|s rest IHrest]; [reflexivity|].
    rewrite !map_cons, !concat_cons, List.filter_app, Hsubs by now left.
    f_equal. apply IHrest. intros s' Hs'. apply Hsubs. now right.
  - assert (Hnone : subs = []).
    { apply (Hleaves (Class n false subs)); [now left|reflexivity]. }
    subst subs. reflexivity.
Qed.

(** In [Vehicle] the concrete classes are leaves: all four are found. *)
Lemma get_subclasses_complete_on_leaves_witness :
  map __name__ (get_subclasses Vehicle) = ["Car"; "Ferry"; "Raft"; "Plane"].
Proof.
  rewrite (get_subclasses_complete_on_leaves Vehicle); [reflexivity|].
  intros d Hd. simpl in Hd.
  repeat (destruct Hd as [<-|Hd]; [simpl; intros; first [reflexivity|discriminate]|]).
  destruct Hd.
Defined.

(** [Dog] is returned for [Animal]: it is concrete and in the tree. *)
Lemma get_subclasses_sound_witness :
  __abstract__ Dog = false /\ In Dog (tree Animal).
Proof.
  apply (get_subclasses_sound Animal Dog). simpl. now left.
Defined.

(** ** The executor, whatever the operation does *)

Lemma loop_return_finished n dt args kwags self w v :
  func self args kwags w = Returned v ->
  loop (S n) dt args kwags (self, w)
    = (Returned v, (self, finished dt args kwags self w)).
Proof. apply loop_return. Qed.

Lemma loop_propagate_finished n dt args kwags self w e :
  func self args kwags w = Raised e ->
  isinstance e (error self) = false ->
  loop (S n) dt args kwags (self, w)
    = (Raised e, (self, finished dt args kwags self w)).
Proof. apply loop_propagate. Qed.

Lemma calls_finished dt args kwags self w :
  calls (finished dt args kwags self w) = S (calls w).
Proof.
  unfold finished.
  destruct (session self); [destruct (truthy dt)|];
    rewrite ?calls_set_default_timeout; apply calls_entered.
Qed.

(** An invariant of the loop: kept by an iteration that times out, it
    holds for the state in which the loop is left, however it is left. *)
Lemma loop_invariant args kwags (I : pyval -> t -> World -> Prop)
    (Post : t -> World -> Prop) :
  (forall dt self w, I dt self w ->
     I (after_timeout dt args kwags self w).1
       (after_timeout dt args kwags self w).2.1
       (after_timeout dt args kwags self w).2.2) ->
  (forall dt self w, I dt self w -> Post self (finished dt args kwags self w)) ->
  (forall dt self w, I dt self w -> Post self w) ->
  forall n dt self w, I dt self w ->
    Post (final_self (loop n dt args kwags (self, w)))
         (final_world (loop n dt args kwags (self, w))).
Proof.
  intros Hstep Hleave Hend. induction n as [|n IH]; intros dt self w HI.
  - now apply (Hend dt).
  - destruct (func self args kwags w) as [v|e] eqn:Hf.
    + rewrite (loop_return_finished n dt args kwags self w v Hf).
      now apply Hleave.
    + destruct (isinstance e (error self)) eqn:He.
      * rewrite (loop_retry n dt args kwags self w e Hf He).
        specialize (Hstep dt self w HI).
        destruct (after_timeout dt args kwags self w) as [dt1 [self1 w1]].
        now apply IH.
      * rewrite (loop_propagate_finished n dt args kwags self w e Hf He).
        now apply Hleave.
Qed.

Lemma execute_is_loop args kwags self w :
  execute args kwags (self, w)
    = loop (Z.to_nat (tries self)) PyNone args kwags (self, w).
Proof. reflexivity. Qed.

Lemma loop_O dt args kwags self w :
  loop 0 dt args kwags (self, w) = (Raised (instantiate (error self)), (self, w)).
Proof. reflexivity. Qed.

Lemma loop_call_bound args kwags n : forall dt self w,
  (calls (final_world (loop n dt args kwags (self, w))) <= calls w + n)%nat /\
  (calls w + Nat.min 1 n <= calls (final_world (loop n dt args kwags (self, w))))%nat.
Proof.
  induction n as [|n IH]; intros dt self w.
  - rewrite loop_O. unfold final_world. simpl. lia.
  - destruct (func self args kwags w) as [v|e] eqn:Hf.
    + rewrite (loop_return_finished n dt args kwags self w v Hf).
      unfold final_world. simpl. rewrite calls_finished. lia.
    + destruct (isinstance e (error self)) eqn:He.
      * rewrite (loop_retry n dt args kwags self w e Hf He).
        pose proof (after_timeout_calls dt args kwags self w) as Hcalls.
        destruct (after_timeout dt args kwags self w) as [dt1 [self1 w1]].
        simpl in *. destruct (IH dt1 self1 w1) as [Hle Hge]. lia.
      * rewrite (loop_propagate_finished n dt args kwags self w e Hf He).
        unfold final_world. simpl. rewrite calls_finished. lia.
Qed.

(** X4: [execute] never calls the operation more often than [range(tries)] has
    items, whatever the operation does, and calls it at least once when
    [tries] is positive. *)
Theorem execute_call_bound (self : t) (args : list pyval)
    (kwags : list (string * pyval)) (w : World) :
  let w' := final_world (execute args kwags (self, w)) in
  (calls w <= calls w' <= calls w + Z.to_nat (tries self))%nat /\
  (0 < tries self -> (calls w < calls w')%nat).
Proof.
  cbv zeta. rewrite execute_is_loop.
  destruct (loop_call_bound args kwags (Z.to_nat (tries self)) PyNone self w)
    as [Hle Hge].
  split; [lia|]. intros Hpos.
  assert (Nat.min 1 (Z.to_nat (tries self)) = 1%nat) by lia. lia.
Qed.

(** The default executor on an operation that always times out: two calls,
    no more. *)
Lemma execute_call_bound_witness :
  let w' := final_world (execute [PyStr "test1"] []
                           (executor_for always_times_out, world0)) in
  (calls world0 < calls w' <= 2)%nat.
Proof.
  destruct (execute_call_bound (executor_for always_times_out)
              [PyStr "test1"] [] world0) as [[_ Hle] Hlt].
  split; [apply Hlt; reflexivity|exact Hle].
Defined.



Lemma default_timeout_set s v w s' :
  default_timeout (set_default_timeout s v w) s'
    = if Nat.eqb s' s then v else default_timeout w s'.
Proof. reflexivity. Qed.

Lemma resolved_given self w s : session self = Some s -> resolved self w = self.
Proof. unfold resolved. now intros ->. Qed.

Lemma handle_given self w s : session self = Some s -> handle self w = Some s.
Proof. intros Hs. unfold handle. now rewrite (resolved_given self w s Hs). Qed.

Lemma handle_resolved self w w' :
  connection_session w' = connection_session w ->
  handle (resolved self w) w' = handle self w.
Proof.
  intros Hcs. unfold handle, resolved.
  destruct self as [f tr lg [s|] er]; simpl; [reflexivity|].
  destruct (connection_session w) as [s|] eqn:Hw; simpl; [reflexivity|].
  exact Hcs.
Qed.

(** The world after the call and the warning of a timed-out attempt. *)
Lemma warned_frame self args kwags w :
  let w1 := emitted self taking_longer (entered args kwags w) in
  DEFAULT_KEYSPACE w1 = DEFAULT_KEYSPACE w /\
  models_Model w1 = models_Model w /\
  connection_session w1 = connection_session w /\
  default_timeout w1 = default_timeout w /\
  invoked w1 = (invoked w ++ [{| inv_args := args; inv_kwargs := kwags;
                                 inv_timeouts := default_timeout w |}])%list.
Proof. unfold emitted. destruct (logger self); repeat split. Qed.

(** A timed-out iteration in closed form, by the session the executor
    ends up with. *)
Lemma after_timeout_cases dt args kwags self w :
  let w1 := emitted self taking_longer (entered args kwags w) in
  after_timeout dt args kwags self w =
  match handle self w with
  | None => (dt, (resolved self w, w1))
  | Some s =>
      (default_timeout w s,
       (resolved self w,
        if truthy (default_timeout w s)
        then set_default_timeout s (default_timeout w s)
               (set_default_timeout s (PyInt 100) w1)
        else set_default_timeout s (PyInt 100) w1))
  end.
Proof.
  unfold handle, after_timeout, resolved, emitted, entered, taking_longer.
  destruct self as [f tr lg ss er]; simpl.
  destruct ss as [s|]; simpl.
  - destruct lg; reflexivity.
  - destruct lg; simpl; destruct (connection_session w); reflexivity.
Qed.

Ltac split_touches := split; [|split; [|split; [|split]]].

Lemma touches_only_step h dt args kwags self w0 w :
  handle self w = h ->
  touches_only h w0 w ->
  touches_only h w0 (after_timeout dt args kwags self w).2.2.
Proof.
  intros Hh [Hks [Hm [Hcs [Ht [made Hmade]]]]].
  rewrite after_timeout_cases. cbv zeta.
  destruct (warned_frame self args kwags w) as [Hks1 [Hm1 [Hcs1 [Ht1 Hi1]]]].
  set (w1 := emitted self taking_longer (entered args kwags w)) in *.
  assert (Hgrown : exists made', invoked w1 = (invoked w0 ++ made')%list).
  { eexists. rewrite Hi1, Hmade, <- app_assoc. reflexivity. }
  rewrite Hh. destruct h as [s|]; simpl.
  - assert (Hother : forall s', default_timeout w1 s' = default_timeout w0 s' \/
                                (Some s = Some s' /\ default_timeout w1 s' = PyInt 100)).
    { intros s'. rewrite Ht1. apply Ht. }
    destruct (truthy (default_timeout w s)); split_touches;
      try (simpl; congruence); try exact Hgrown.
    + intros s'. rewrite !default_timeout_set.
      destruct (Nat.eqb_spec s' s) as [->|]; [|apply Hother]. apply Ht.
    + intros s'. rewrite !default_timeout_set.
      destruct (Nat.eqb_spec s' s) as [->|]; [|apply Hother]. now right.
  - split_touches; try congruence; try exact Hgrown.
    intros s'. rewrite Ht1. apply Ht.
Qed.

Lemma calls_since_app w w' made :
  invoked w' = (invoked w ++ made)%list -> calls_since w w' = made.
Proof.
  intros H. unfold calls_since, calls. rewrite H. apply drop_app_length.
Qed.

(** Every call [execute] makes passes the arguments it was given. *)
Lemma loop_same_arguments args kwags n dt self w :
  exists made,
    invoked (final_world (loop n dt args kwags (self, w))) = (invoked w ++ made)%list /\
    Forall (fun i => inv_args i = args /\ inv_kwargs i = kwags) made.
Proof.
  apply (loop_invariant args kwags
           (fun _ _ w1 =>
              exists made, invoked w1 = (invoked w ++ made)%list /\
                Forall (fun i => inv_args i = args /\ inv_kwargs i = kwags) made)
           (fun _ w1 =>
              exists made, invoked w1 = (invoked w ++ made)%list /\
                Forall (fun i => inv_args i = args /\ inv_kwargs i = kwags) made)).
  - intros dt1 self1 w1 [made [Hmade Hall]].
    destruct (touches_only_step (handle self1 w1) dt1 args kwags self1 w1 w1 eq_refl)
      as [_ [_ [_ [_ [more Hmore]]]]].
    { split_touches; try reflexivity; [intros s; now left|].
      exists []. now rewrite app_nil_r. }
    pose proof (after_timeout_calls dt1 args kwags self1 w1) as Hcalls.
    rewrite after_timeout_cases in *. cbv zeta in *.
    destruct (warned_frame self1 args kwags w1) as [_ [_ [_ [_ Hi1]]]].
    cbv zeta in Hi1.
    eexists. split.
    + destruct (handle self1 w1); simpl; [destruct (truthy _); simpl|];
        rewrite Hi1, Hmade, <- app_assoc; reflexivity.
    + apply Forall_app. split; [exact Hall|]. constructor; [|constructor].
      split; reflexivity.
  - intros dt1 self1 w1 [made [Hmade Hall]]. eexists. split.
    + unfold finished. destruct (session self1); [destruct (truthy dt1)|];
        simpl; rewrite Hmade, <- app_assoc; reflexivity.
    + apply Forall_app. split; [exact Hall|]. constructor; [|constructor].
      split; reflexivity.
  - intros _ _ w1 H. exact H.
  - exists []. split; [now rewrite app_nil_r|constructor].
Qed.

(** X11: Every call [execute] makes, on the first attempt and on every retry,
    passes exactly the positional and keyword arguments [execute] was
    given. *)
Theorem execute_passes_same_arguments (self : t) (args : list pyval)
    (kwags : list (string * pyval)) (w : World) :
  Forall (fun i => inv_args i = args /\ inv_kwargs i = kwags)
         (calls_since w (final_world (execute args kwags (self, w)))).
Proof.
  rewrite execute_is_loop.
  destruct (loop_same_arguments args kwags (Z.to_nat (tries self)) PyNone self w)
    as [made [Hmade Hall]].
  now rewrite (calls_since_app _ _ made Hmade).
Qed.

(** ** Dropping and syncing *)

(** The [with] block is transparent: it ends as its body ends, with the
    state the body left. *)
Lemma with_executor_run {T : Type} (self : t) (body : M State T) (w : World) :
  with_executor self body w = ((body (self, w)).1, (body (self, w)).2.2).
Proof.
  unfold with_executor, __enter__, __exit__, bind, attempt, self_, ret, raise.
  simpl. destruct (body (self, w)) as [[v|e] [self' w']]; reflexivity.
Qed.

(** One [with handel_db_timeout(op) as x: x.execute(arg)] statement: a loop
    of two iterations. *)
Lemma run_is_loop (op : Callable) (arg : pyval) (w : World) :
  with_executor (executor_for op) (execute [arg] []) w
    = ((loop 2 PyNone [arg] [] (executor_for op, w)).1,
       (loop 2 PyNone [arg] [] (executor_for op, w)).2.2).
Proof. rewrite with_executor_run, execute_is_loop. reflexivity. Qed.

(** One [with handel_db_timeout(op) as x: x.execute(arg)] statement whose
    first call returns. *)
Lemma run_returns (op : Callable) (arg : pyval) (w : World) (v : pyval) :
  op [arg] [] w = Returned v ->
  with_executor (executor_for op) (execute [arg] []) w
    = (Returned v, entered [arg] [] w).
Proof.
  intros Hop. rewrite with_executor_run, execute_is_loop.
  change (Z.to_nat (tries (executor_for op))) with 2%nat.
  now rewrite (loop_return 1 PyNone [arg] [] (executor_for op) w v Hop).
Qed.

(** ... and whose first call raises an error that is not retried. *)
Lemma run_propagates (op : Callable) (arg : pyval) (w : World) (e : exn) :
  op [arg] [] w = Raised e ->
  isinstance e OperationTimedOut = false ->
  with_executor (executor_for op) (execute [arg] []) w
    = (Raised e, entered [arg] [] w).
Proof.
  intros Hop He. rewrite with_executor_run, execute_is_loop.
  change (Z.to_nat (tries (executor_for op))) with 2%nat.
  now rewrite (loop_propagate 1 PyNone [arg] [] (executor_for op) w e Hop He).
Qed.

Lemma invoked_all_entered models : forall w,
  invoked (all_entered models w)
    = (invoked w ++ map (fun model => {| inv_args := [PyType model];
                                         inv_kwargs := [];
                                         inv_timeouts := default_timeout w |})
                        models)%list.
Proof.
  induction models as [|m rest IH]; intros w; simpl.
  - now rewrite app_nil_r.
  - change (all_entered rest (entered [PyType m] [] w)) with
      (fold_left (fun w1 model => entered [PyType model] [] w1) rest
         (entered [PyType m] [] w)).
    unfold all_entered in IH. rewrite IH. simpl. now rewrite <- app_assoc.
Qed.

Lemma drop_each_returns (drop_table : Callable) models : forall w,
  (forall model w', In model models ->
     is_Returned (drop_table [PyType model] [] w') = true) ->
  drop_each drop_table models w = (Returned tt, all_entered models w).
Proof.
  induction models as [|m rest IH]; intros w Hok; [reflexivity|].
  simpl drop_each.
  destruct (drop_table [PyType m] [] w) as [v|e] eqn:Hop.
  - erewrite bind_Returned; [|apply (run_returns drop_table (PyType m) w v Hop)].
    apply IH. intros model w' Hin. apply Hok. now right.
  - specialize (Hok m w (or_introl eq_refl)). rewrite Hop in Hok. discriminate.
Qed.

Lemma drop_each_app (drop_table : Callable) pre rest : forall w,
  (forall model w', In model pre ->
     is_Returned (drop_table [PyType model] [] w') = true) ->
  drop_each drop_table (pre ++ rest) w
    = drop_each drop_table rest (all_entered pre w).
Proof.
  induction pre as [|m pre IH]; intros w Hok; [reflexivity|].
  simpl drop_each.
  destruct (drop_table [PyType m] [] w) as [v|e] eqn:Hop.
  - erewrite bind_Returned; [|apply (run_returns drop_table (PyType m) w v Hop)].
    apply IH. intros model w' Hin. apply Hok. now right.
  - specialize (Hok m w (or_introl eq_refl)). rewrite Hop in Hok. discriminate.
Qed.

(** X12: When [drop_table] returns for every enumerated model, [drop_tables]
    returns after exactly one call per model, made in enumeration order
    with the model as the only argument: one positional argument and no
    keyword. *)
Theorem drop_tables_one_call_per_model (drop_table : Callable)
    (db : CQLAlchemy.t) (w : World) :
  (forall model w', In model (get_subclasses (models_Model w)) ->
     is_Returned (drop_table [PyType model] [] w') = true) ->
  exists w',
    drop_tables drop_table db w = (Returned tt, w') /\
    map (fun i => (inv_args i, inv_kwargs i)) (calls_since w w')
      = map (fun model => ([PyType model], [])) (get_subclasses (models_Model w)) /\
    calls w' = (calls w + length (get_subclasses (models_Model w)))%nat.
Proof.
  intros Hok. exists (all_entered (get_subclasses (models_Model w)) w).
  unfold drop_tables, bind, get. cbv beta iota.
  rewrite (drop_each_returns drop_table _ w Hok).
  pose proof (invoked_all_entered (get_subclasses (models_Model w)) w) as Htrace.
  split; [reflexivity|]. split.
  - rewrite (calls_since_app _ _ _ Htrace), map_map. reflexivity.
  - unfold calls. rewrite Htrace, length_app, length_map. reflexivity.
Qed.

Lemma drop_tables_one_call_per_model_witness :
  exists w',
    drop_tables always_succeeds CQLAlchemy.blank world0 = (Returned tt, w') /\
    map (fun i => (inv_args i, inv_kwargs i)) (calls_since world0 w')
      = [([PyType Dog], []); ([PyType Cat], [])] /\
    calls w' = 2%nat.
Proof.
  destruct (drop_tables_one_call_per_model always_succeeds CQLAlchemy.blank world0)
    as [w' [Hrun [Htrace Hcalls]]].
  - intros model w' _. reflexivity.
  - exists w'. split; [exact Hrun|]. split; [exact Htrace|exact Hcalls].
Defined.

(** X13: [drop_tables] stops at the first model whose drop raises an error that
    is not retried: the models before it have been dropped, that model has
    been tried once, the models after it are never tried, and the error
    reaches the caller. *)
Theorem drop_tables_stops_at_first_error (drop_table : Callable)
    (db : CQLAlchemy.t) (w : World) (pre post : list cls) (bad : cls) (e : exn) :
  get_subclasses (models_Model w) = (pre ++ bad :: post)%list ->
  (forall model w', In model pre ->
     is_Returned (drop_table [PyType model] [] w') = true) ->
  (forall w', drop_table [PyType bad] [] w' = Raised e) ->
  isinstance e OperationTimedOut = false ->
  exists w',
    drop_tables drop_table db w = (Raised e, w') /\
    map inv_args (calls_since w w')
      = map (fun model => [PyType model]) (pre ++ [bad])%list.
Proof.
  intros Hmodels Hpre Hbad He.
  exists (entered [PyType bad] [] (all_entered pre w)).
  unfold drop_tables, bind, get. cbv beta iota. rewrite Hmodels.
  rewrite (drop_each_app drop_table pre (bad :: post) w Hpre).
  simpl drop_each.
  erewrite bind_Raised;
    [|apply (run_propagates drop_table (PyType bad) _ e (Hbad _) He)].
  split; [reflexivity|].
  pose proof (invoked_all_entered pre w) as Htrace.
  erewrite calls_since_app.
  2:{ simpl. rewrite Htrace, <- app_assoc. reflexivity. }
  rewrite !map_app, map_map. reflexivity.
Qed.

(** [Dog] is dropped, the drop of [Cat] fails, and that is the end. *)
Lemma drop_tables_stops_at_first_error_witness :
  exists w',
    drop_tables (drop_fails_on "Cat") CQLAlchemy.blank world0
      = (Raised invalid_request, w') /\
    map inv_args (calls_since world0 w') = [[PyType Dog]; [PyType Cat]].
Proof.
  apply (drop_tables_stops_at_first_error (drop_fails_on "Cat") CQLAlchemy.blank
           world0 [Dog] [] Cat invalid_request).
  - reflexivity.
  - intros model w' [<-|[]]. reflexivity.
  - intros w'. reflexivity.
  - reflexivity.
Defined.

(** X14: When [drop_table] keeps timing out, [drop_tables] gives up on the
    first enumerated model after two calls and raises an error of the
    class [OperationTimedOut]; no other model is tried. *)
Theorem drop_tables_gives_up_on_first_model (drop_table : Callable)
    (db : CQLAlchemy.t) (w : World) (first : cls) (rest : list cls) :
  get_subclasses (models_Model w) = first :: rest ->
  (forall w', times_out [PyType first] [] (executor_for drop_table) w') ->
  exists e w',
    drop_tables drop_table db w = (Raised e, w') /\
    exn_class e = OperationTimedOut /\
    map inv_args (calls_since w w') = [[PyType first]; [PyType first]].
Proof.
  intros Hmodels Htimes.
  unfold drop_tables, bind, get. cbv beta iota. rewrite Hmodels.
  simpl drop_each.
  destruct (loop_exhausts [PyType first] [] 2 PyNone (executor_for drop_table) w)
    as [self' [w' [Hrun Hcalls]]]; [intros w' _; apply Htimes|].
  destruct (loop_same_arguments [PyType first] [] 2 PyNone (executor_for drop_table) w)
    as [made [Hmade Hall]].
  rewrite Hrun in Hmade. unfold final_world in Hmade. simpl in Hmade.
  exists (instantiate OperationTimedOut), w'. split; [|split].
  - erewrite bind_Raised; [reflexivity|].
    etransitivity; [apply (run_is_loop drop_table (PyType first) w)|].
    now rewrite Hrun.
  - apply exn_class_instantiate.
  - rewrite (calls_since_app _ _ made Hmade).
    assert (Hlen : length made = 2%nat).
    { unfold calls in Hcalls. rewrite Hmade, length_app in Hcalls. lia. }
    destruct made as [|i1 [|i2 [|i3 made]]]; try discriminate.
    apply Forall_cons_1 in Hall as [[H1 _] Hall].
    apply Forall_cons_1 in Hall as [[H2 _] _].
    simpl. now rewrite H1, H2.
Qed.

Lemma drop_tables_gives_up_on_first_model_witness :
  exists e w',
    drop_tables always_times_out CQLAlchemy.blank world0 = (Raised e, w') /\
    exn_class e = OperationTimedOut /\
    map inv_args (calls_since world0 w') = [[PyType Dog]; [PyType Dog]].
Proof.
  apply (drop_tables_gives_up_on_first_model always_times_out CQLAlchemy.blank
           world0 Dog [Cat]).
  - reflexivity.
  - intros w'. exists timed_out. split; reflexivity.
Defined.

(** [drop_db] on a facade with a keyspace: the two-iteration loop on the
    keyspace, its value replaced by [None]. *)
Lemma drop_db_run (drop_keyspace : Callable) (db : CQLAlchemy.t) (w : World)
    (keyspace : pyval) :
  CQLAlchemy._keyspace_ db = Some keyspace ->
  drop_db drop_keyspace db w =
  (match (loop 2 PyNone [keyspace] [] (executor_for drop_keyspace, w)).1 with
   | Returned _ => Returned tt
   | Raised e => Raised e
   end,
   (loop 2 PyNone [keyspace] [] (executor_for drop_keyspace, w)).2.2).
Proof.
  intros Hks. unfold drop_db. rewrite Hks. unfold bind.
  pose proof (run_is_loop drop_keyspace keyspace w) as Hrun.
  unfold executor_for in Hrun. rewrite Hrun. unfold executor_for.
  destruct (loop 2 PyNone [keyspace] [] _) as [[v|e] [self' w']]; reflexivity.
Qed.

Lemma loop_first_returns (op : Callable) (arg : pyval) (w : World) (v : pyval) :
  op [arg] [] w = Returned v ->
  loop 2 PyNone [arg] [] (executor_for op, w)
    = (Returned v, (executor_for op, entered [arg] [] w)).
Proof.
  intros Hop. now rewrite (loop_return 1 PyNone [arg] [] (executor_for op) w v Hop).
Qed.

(** X15: A facade made by [CQLAlchemy()] and never bound has no keyspace:
    [drop_db] on it raises [AttributeError]; the driver's [drop_keyspace]
    is not called and nothing changes. *)
Theorem drop_db_before_binding (connection_setup : SetupCall -> M World unit)
    (drop_keyspace : Callable) (w : World) :
  exists db,
    CQLAlchemy.new connection_setup None w = (Returned db, w) /\
    drop_db drop_keyspace db w = (Raised no_keyspace_attribute, w).
Proof. eexists. split; reflexivity. Qed.

(** X16: After a successful [init_app], [drop_db] hands the configured keyspace,
    and nothing else, to [drop_keyspace]; when that call returns,
    [drop_db] returns after this one call. *)
Theorem drop_db_passes_configured_keyspace
    (connection_setup : SetupCall -> M World unit) (drop_keyspace : Callable)
    (a : Flask) (db db' : CQLAlchemy.t) (w w' : World) :
  CQLAlchemy.init_app connection_setup a (db, w) = (Returned tt, (db', w')) ->
  exists keyspace,
    config a !! "CASSANDRA_KEYSPACE" = Some keyspace /\
    (is_Returned (drop_keyspace [keyspace] [] w') = true ->
     drop_db drop_keyspace db' w' = (Returned tt, entered [keyspace] [] w')).
Proof.
  intros Hbound.
  apply init_app_returned in Hbound as [hosts [keyspace [_ [Hks [_ ->]]]]].
  exists keyspace. split; [exact Hks|]. intros Hret.
  destruct (drop_keyspace [keyspace] [] w') as [v|e] eqn:Hop; [|discriminate].
  rewrite (drop_db_run drop_keyspace
             (CQLAlchemy.set_keyspace_attr keyspace (CQLAlchemy.set_hosts hosts db))
             w' keyspace eq_refl).
  now rewrite (loop_first_returns drop_keyspace keyspace w' v Hop).
Qed.

Lemma drop_db_passes_configured_keyspace_witness :
  map inv_args
    (invoked (drop_db always_succeeds bound_by_init_app.1 bound_by_init_app.2).2)
  = [[PyStr "test1"]].
Proof.
  destruct (drop_db_passes_configured_keyspace setup_succeeds always_succeeds
              app_ok CQLAlchemy.blank bound_by_init_app.1 world0 bound_by_init_app.2)
    as [keyspace [Hks Hdrop]]; [vm_compute; reflexivity|].
  rewrite (Hdrop eq_refl).
  vm_compute in Hks. injection Hks as <-. reflexivity.
Defined.

(** X17: After [set_keyspace(v)] with a truthy [v], [drop_db] drops [v], not the
    configured keyspace. *)
Theorem drop_db_after_set_keyspace (drop_keyspace : Callable)
    (db : CQLAlchemy.t) (w : World) (v : pyval) :
  truthy v = true ->
  let st := (CQLAlchemy.set_keyspace v (db, w)).2 in
  is_Returned (drop_keyspace [v] [] st.2) = true ->
  drop_db drop_keyspace st.1 st.2 = (Returned tt, entered [v] [] st.2) /\
  DEFAULT_KEYSPACE st.2 = v.
Proof.
  intros Hv. cbv zeta. rewrite (set_keyspace_truthy db w v Hv). simpl.
  intros Hret. split; [|reflexivity].
  destruct (drop_keyspace [v] [] (set_DEFAULT_KEYSPACE v w)) as [r|e] eqn:Hop;
    [|discriminate].
  rewrite (drop_db_run drop_keyspace (CQLAlchemy.set_keyspace_attr v db)
             (set_DEFAULT_KEYSPACE v w) v eq_refl).
  now rewrite (loop_first_returns drop_keyspace v _ r Hop).
Qed.

Lemma drop_db_after_set_keyspace_witness :
  let st := (CQLAlchemy.set_keyspace (PyStr "other") bound_by_init_app).2 in
  map inv_args (invoked (drop_db always_succeeds st.1 st.2).2) = [[PyStr "other"]].
Proof.
  cbv zeta.
  destruct (drop_db_after_set_keyspace always_succeeds bound_by_init_app.1
              bound_by_init_app.2 (PyStr "other") eq_refl eq_refl) as [Hdrop _].
  change (bound_by_init_app.1, bound_by_init_app.2) with bound_by_init_app in Hdrop.
  rewrite Hdrop. reflexivity.
Defined.

(** X18: On a facade with a keyspace, [drop_db] calls [drop_keyspace] once or
    twice, whatever it returns or raises; when every call times out,
    [drop_db] raises an error of the class [OperationTimedOut] after
    exactly two calls. *)
Theorem drop_db_at_most_two_calls (drop_keyspace : Callable)
    (db : CQLAlchemy.t) (w : World) (keyspace : pyval) :
  CQLAlchemy._keyspace_ db = Some keyspace ->
  let r := drop_db drop_keyspace db w in
  (calls w + 1 <= calls r.2 <= calls w + 2)%nat /\
  ((forall w', times_out [keyspace] [] (executor_for drop_keyspace) w') ->
   exists e, r.1 = Raised e /\ exn_class e = OperationTimedOut /\
             calls r.2 = (calls w + 2)%nat).
Proof.
  intros Hks. cbv zeta. rewrite (drop_db_run drop_keyspace db w keyspace Hks).
  split.
  - destruct (loop_call_bound [keyspace] [] 2 PyNone (executor_for drop_keyspace) w)
      as [Hle Hge].
    unfold final_world in Hle, Hge. change (Nat.min 1 2) with 1%nat in Hge.
    cbn [snd]. split; [exact Hge|exact Hle].
  - intros Htimes.
    destruct (loop_exhausts [keyspace] [] 2 PyNone (executor_for drop_keyspace) w)
      as [self' [w' [Hloop Hcalls]]]; [intros w' _; apply Htimes|].
    rewrite Hloop. exists (instantiate OperationTimedOut).
    split; [reflexivity|]. split; [apply exn_class_instantiate|exact Hcalls].
Qed.

Lemma drop_db_at_most_two_calls_witness :
  exists e,
    (drop_db always_times_out bound_by_init_app.1 bound_by_init_app.2).1
      = Raised e /\
    exn_class e = OperationTimedOut /\
    calls (drop_db always_times_out bound_by_init_app.1 bound_by_init_app.2).2
      = 2%nat.
Proof.
  apply (proj2 (drop_db_at_most_two_calls always_times_out bound_by_init_app.1
                  bound_by_init_app.2 (PyStr "test1") eq_refl)).
  intros w'. exists timed_out. split; reflexivity.
Defined.

Lemma sync_each_app (sync_table : cls -> M World unit) (self : CQLAlchemy.t)
    pre rest : forall w,
  (forall model w', In model pre -> (sync_table model w').1 = Returned tt) ->
  CQLAlchemy.sync_each sync_table (pre ++ rest) (self, w)
    = CQLAlchemy.sync_each sync_table rest (self, all_synced sync_table pre w).
Proof.
  induction pre as [|m pre IH]; intros w Hok; [reflexivity|].
  simpl CQLAlchemy.sync_each. unfold bind at 1. unfold CQLAlchemy.call_sync_table.
  pose proof (Hok m w (or_introl eq_refl)) as Hm.
  destruct (sync_table m w) as [r w1] eqn:Hrun. simpl in Hm. subst r.
  simpl. replace w1 with (sync_table m w).2 by now rewrite Hrun.
  apply IH. intros model w' Hin. apply Hok. now right.
Qed.

(** X19: When [sync_table] returns for every enumerated model, [sync_db] runs it
    once per model in enumeration order and returns; the facade is
    unchanged. *)
Theorem sync_db_syncs_in_order (sync_table : cls -> M World unit)
    (self : CQLAlchemy.t) (w : World) :
  (forall model w', In model (get_subclasses (models_Model w)) ->
     (sync_table model w').1 = Returned tt) ->
  CQLAlchemy.sync_db sync_table (self, w)
    = (Returned tt,
       (self, all_synced sync_table (get_subclasses (models_Model w)) w)).
Proof.
  intros Hok. unfold CQLAlchemy.sync_db.
  rewrite <- (app_nil_r (get_subclasses (models_Model w))) at 1.
  rewrite (sync_each_app sync_table self _ [] w Hok). reflexivity.
Qed.

Lemma sync_db_syncs_in_order_witness :
  printed (final_world (CQLAlchemy.sync_db sync_prints (CQLAlchemy.blank, world0)))
    = ["Dog"; "Cat"].
Proof.
  rewrite (sync_db_syncs_in_order sync_prints CQLAlchemy.blank world0).
  - reflexivity.
  - intros model w' _. reflexivity.
Defined.

(** X20: [sync_db] stops at the first model on which [sync_table] raises: the
    models before it stay synced, the models after it are not touched, and
    the error reaches the caller. *)
Theorem sync_db_stops_at_first_error (sync_table : cls -> M World unit)
    (self : CQLAlchemy.t) (w : World) (pre post : list cls) (bad : cls) (e : exn) :
  get_subclasses (models_Model w) = (pre ++ bad :: post)%list ->
  (forall model w', In model pre -> (sync_table model w').1 = Returned tt) ->
  (sync_table bad (all_synced sync_table pre w)).1 = Raised e ->
  CQLAlchemy.sync_db sync_table (self, w)
    = (Raised e, (self, (sync_table bad (all_synced sync_table pre w)).2)).
Proof.
  intros Hmodels Hpre Hbad. unfold CQLAlchemy.sync_db. rewrite Hmodels.
  rewrite (sync_each_app sync_table self pre (bad :: post) w Hpre).
  simpl CQLAlchemy.sync_each. unfold bind, CQLAlchemy.call_sync_table.
  destruct (sync_table bad (all_synced sync_table pre w)) as [r w1].
  simpl in Hbad. subst r. reflexivity.
Qed.

(** [Dog] is synced, the sync of [Cat] fails, and that is the end. *)
Lemma sync_db_stops_at_first_error_witness :
  outcome (CQLAlchemy.sync_db (sync_fails_on "Cat") (CQLAlchemy.blank, world0))
    = Raised invalid_request /\
  printed (final_world (CQLAlchemy.sync_db (sync_fails_on "Cat")
                          (CQLAlchemy.blank, world0)))
    = ["Dog"].
Proof.
  rewrite (sync_db_stops_at_first_error (sync_fails_on "Cat") CQLAlchemy.blank
             world0 [Dog] [] Cat invalid_request).
  - split; reflexivity.
  - reflexivity.
  - intros model w' [<-|[]]. reflexivity.
  - reflexivity.
Defined.

(** ** The facade *)

(** X21: A missing required setting ends [init_app] with [KeyError] before the
    driver is called, for any driver: without [CASSANDRA_HOSTS] nothing has
    been assigned; without [CASSANDRA_KEYSPACE] the hosts are already
    stored on the facade. *)
Theorem init_app_missing_setting (connection_setup : SetupCall -> M World unit)
    (a : Flask) (f : CQLAlchemy.t) (w : World) :
  (config a !! "CASSANDRA_HOSTS" = None ->
   CQLAlchemy.init_app connection_setup a (f, w)
     = (Raised (Exn KeyError "CASSANDRA_HOSTS"), (f, w))) /\
  (forall hosts,
     config a !! "CASSANDRA_HOSTS" = Some hosts ->
     config a !! "CASSANDRA_KEYSPACE" = None ->
     CQLAlchemy.init_app connection_setup a (f, w)
       = (Raised (Exn KeyError "CASSANDRA_KEYSPACE"),
          (CQLAlchemy.set_hosts hosts f, w))).
Proof.
  split.
  - intros Hh. rewrite init_app_run, Hh. reflexivity.
  - intros hosts Hh Hk. rewrite init_app_run, Hh, Hk. reflexivity.
Qed.

Lemma init_app_missing_setting_witness :
  CQLAlchemy.init_app setup_succeeds app_no_hosts_key (CQLAlchemy.blank, world0)
    = (Raised (Exn KeyError "CASSANDRA_HOSTS"), (CQLAlchemy.blank, world0)).
Proof.
  apply (proj1 (init_app_missing_setting setup_succeeds app_no_hosts_key
                  CQLAlchemy.blank world0)).
  vm_compute. reflexivity.
Defined.

(** X22: With truthy hosts and a keyspace, [init_app] stores both and calls
    [connection.setup] once with them; with none of the optional settings
    present the call carries consistency 1, [lazy_connect] and
    [retry_connect] false and no further keywords.  However the driver's
    call ends, that is how [init_app] ends, with both values stored. *)
Theorem init_app_connects_with_defaults
    (connection_setup : SetupCall -> M World unit)
    (a : Flask) (f : CQLAlchemy.t) (w : World) (hosts keyspace : pyval) :
  config a !! "CASSANDRA_HOSTS" = Some hosts ->
  config a !! "CASSANDRA_KEYSPACE" = Some keyspace ->
  truthy hosts = true ->
  config a !! "CASSANDRA_CONSISTENCY" = None ->
  config a !! "CASSANDRA_LAZY_CONNECT" = None ->
  config a !! "CASSANDRA_RETRY_CONNECT" = None ->
  config a !! "CASSANDRA_SETUP_KWARGS" = None ->
  let call := {| setup_hosts := hosts;
                 setup_keyspace := keyspace;
                 setup_consistency := PyInt 1;
                 setup_lazy_connect := PyBool false;
                 setup_retry_connect := PyBool false;
                 setup_kwargs := [] |} in
  CQLAlchemy.init_app connection_setup a (f, w)
    = ((connection_setup call w).1,
       (CQLAlchemy.set_keyspace_attr keyspace (CQLAlchemy.set_hosts hosts f),
        (connection_setup call w).2)).
Proof.
  intros Hh Hk Htruthy Hc Hl Hr Hkw. cbv zeta.
  rewrite init_app_run, Hh, Hk. cbv zeta. rewrite Htruthy. simpl negb.
  cbv beta iota delta [andb]. unfold setup_call_of, CQLAlchemy.dict_get.
  rewrite Hc, Hl, Hr, Hkw. reflexivity.
Qed.

Lemma init_app_connects_with_defaults_witness :
  CQLAlchemy.init_app setup_succeeds app_ok (CQLAlchemy.blank, world0)
    = (Returned tt,
       (CQLAlchemy.set_keyspace_attr (PyStr "test1")
          (CQLAlchemy.set_hosts hosts_value CQLAlchemy.blank),
        set_DEFAULT_KEYSPACE (PyStr "test1") world0)).
Proof.
  apply (init_app_connects_with_defaults setup_succeeds app_ok CQLAlchemy.blank
           world0 hosts_value (PyStr "test1")); vm_compute; reflexivity.
Defined.

(** X23: When [CQLAlchemy(app)] returns, the facade holds the application and
    the configured hosts and keyspace, exactly as found in [app.config]. *)
Theorem new_with_app_stores_settings
    (connection_setup : SetupCall -> M World unit)
    (a : Flask) (w w' : World) (db : CQLAlchemy.t) :
  CQLAlchemy.new connection_setup (Some a) w = (Returned db, w') ->
  CQLAlchemy.app db = Some a /\
  CQLAlchemy._hosts_ db = config a !! "CASSANDRA_HOSTS" /\
  CQLAlchemy._keyspace_ db = config a !! "CASSANDRA_KEYSPACE" /\
  is_Some (config a !! "CASSANDRA_HOSTS") /\
  is_Some (config a !! "CASSANDRA_KEYSPACE").
Proof.
  intros Hnew. unfold CQLAlchemy.new, CQLAlchemy.__init__, bind in Hnew.
  simpl in Hnew.
  destruct (CQLAlchemy.init_app connection_setup a
              (CQLAlchemy.set_app (Some a) CQLAlchemy.blank, w))
    as [[[]|e] [f' w'']] eqn:Hbound; [|discriminate].
  inversion Hnew; subst f' w''.
  apply init_app_returned in Hbound as [hosts [keyspace [Hh [Hk [_ ->]]]]].
  rewrite Hh, Hk. repeat split; eauto.
Qed.

Lemma new_with_app_stores_settings_witness :
  CQLAlchemy.app constructed_ok.1 = Some app_ok /\
  CQLAlchemy._keyspace_ constructed_ok.1 = Some (PyStr "test1").
Proof.
  destruct (new_with_app_stores_settings setup_succeeds app_ok world0
              constructed_ok.2 constructed_ok.1)
    as [Happ [_ [Hks _]]]; [vm_compute; reflexivity|].
  split; [exact Happ|]. rewrite Hks. vm_compute. reflexivity.
Defined.

(** X24: An override leaves nothing behind once it is replaced: after
    [set_keyspace(v)], a reset with a falsy argument ends in the state a
    reset alone would have given, and another override with a truthy [v']
    ends in the state [set_keyspace(v')] alone would have given. *)
Theorem set_keyspace_override_is_replaced (f : CQLAlchemy.t) (w : World)
    (a : Flask) (keyspace v v' : pyval) :
  CQLAlchemy.app f = Some a ->
  config a !! "CASSANDRA_KEYSPACE" = Some keyspace ->
  truthy v = true ->
  (CQLAlchemy.set_keyspace PyNone (CQLAlchemy.set_keyspace v (f, w)).2
     = CQLAlchemy.set_keyspace PyNone (f, w) /\
   DEFAULT_KEYSPACE
     (final_world (CQLAlchemy.set_keyspace PyNone (CQLAlchemy.set_keyspace v (f, w)).2))
     = keyspace) /\
  (truthy v' = true ->
   CQLAlchemy.set_keyspace v' (CQLAlchemy.set_keyspace v (f, w)).2
     = CQLAlchemy.set_keyspace v' (f, w)).
Proof.
  intros Happ Hks Hv. rewrite (set_keyspace_truthy f w v Hv). simpl snd.
  split; [split|].
  - rewrite (set_keyspace_falsy (CQLAlchemy.set_keyspace_attr v f)
               (set_DEFAULT_KEYSPACE v w) a keyspace PyNone Happ Hks eq_refl).
    rewrite (set_keyspace_falsy f w a keyspace PyNone Happ Hks eq_refl).
    reflexivity.
  - rewrite (set_keyspace_falsy (CQLAlchemy.set_keyspace_attr v f)
               (set_DEFAULT_KEYSPACE v w) a keyspace PyNone Happ Hks eq_refl).
    reflexivity.
  - intros Hv'. rewrite !(set_keyspace_truthy _ _ v' Hv'). reflexivity.
Qed.

Lemma set_keyspace_override_is_replaced_witness :
  DEFAULT_KEYSPACE
    (final_world (CQLAlchemy.set_keyspace PyNone
                    (CQLAlchemy.set_keyspace (PyStr "other") constructed_ok).2))
    = PyStr "test1".
Proof.
  apply (proj1 (set_keyspace_override_is_replaced constructed_ok.1 constructed_ok.2
                  app_ok (PyStr "test1") (PyStr "other") (PyStr "other")
                  eq_refl eq_refl eq_refl)).
Defined.

(** X25: [set_keyspace] touches only the keyspace: the application, the hosts,
    the sessions, the trace and the outputs stay as they are.  When it
    raises, nothing at all has changed; when it returns, the facade's
    keyspace field and the process-wide default hold the same value. *)
Theorem set_keyspace_touches_only_keyspace (f : CQLAlchemy.t) (w : World)
    (v : pyval) :
  let r := CQLAlchemy.set_keyspace v (f, w) in
  CQLAlchemy.app (final_self r) = CQLAlchemy.app f /\
  CQLAlchemy._hosts_ (final_self r) = CQLAlchemy._hosts_ f /\
  models_Model (final_world r) = models_Model w /\
  connection_session (final_world r) = connection_session w /\
  default_timeout (final_world r) = default_timeout w /\
  invoked (final_world r) = invoked w /\
  logged (final_world r) = logged w /\
  printed (final_world r) = printed w /\
  (is_Returned (outcome r) = false -> r.2 = (f, w)) /\
  (is_Returned (outcome r) = true ->
   CQLAlchemy._keyspace_ (final_self r) = Some (DEFAULT_KEYSPACE (final_world r))).
Proof.
  cbv zeta. destruct (truthy v) eqn:Hv.
  - rewrite (set_keyspace_truthy f w v Hv). unfold final_self, final_world, outcome.
    simpl. do 8 (split; [reflexivity|]). split; [discriminate|reflexivity].
  - destruct (CQLAlchemy.app f) as [a|] eqn:Happ.
    + destruct (config a !! "CASSANDRA_KEYSPACE") as [keyspace|] eqn:Hks.
      * rewrite (set_keyspace_falsy f w a keyspace v Happ Hks Hv).
        unfold final_self, final_world, outcome. simpl.
        do 8 (split; [first [reflexivity|assumption]|]).
        split; [discriminate|reflexivity].
      * unfold CQLAlchemy.set_keyspace, bind, CQLAlchemy.self_, CQLAlchemy.getitem.
        rewrite Hv. simpl. rewrite Happ, Hks.
        unfold final_self, final_world, outcome. simpl.
        do 8 (split; [first [reflexivity|assumption]|]).
        split; [reflexivity|discriminate].
    + rewrite (set_keyspace_no_app f w v Happ Hv).
      unfold final_self, final_world, outcome. simpl.
      do 8 (split; [first [reflexivity|assumption]|]).
      split; [reflexivity|discriminate].
Qed.

(** After [set_keyspace("other")] on the sample facade both hold ["other"]. *)
Lemma set_keyspace_touches_only_keyspace_witness :
  let r := CQLAlchemy.set_keyspace (PyStr "other") constructed_ok in
  CQLAlchemy._keyspace_ (final_self r) = Some (DEFAULT_KEYSPACE (final_world r)) /\
  CQLAlchemy._hosts_ (final_self r) = Some hosts_value.
Proof.
  destruct (set_keyspace_touches_only_keyspace constructed_ok.1 constructed_ok.2
              (PyStr "other"))
    as [_ [Hhosts [_ [_ [_ [_ [_ [_ [_ Hagree]]]]]]]]].
  split.
  - apply Hagree. reflexivity.
  - exact Hhosts.
Defined.

(** * The executor around an operation with effects *)

Lemma invoke_with_run op args kwags self w :
  invoke_with op args kwags (self, w)
    = ((called op args kwags w).1, (self, (called op args kwags w).2)).
Proof.
  unfold invoke_with, called. destruct (op args kwags w). reflexivity.
Qed.

(** The two clauses, run from a state, end as [after_handler] says. *)
Lemma handled_run dt self w :
  handled dt (self, w) = after_handler dt self w.
Proof.
  unfold handled, after_handler, resolved, emitted, taking_longer.
  unfold on_timeout, warning, bind, self_, on_world, modify, restore, ret.
  destruct self as [f tr lg ss er]. simpl.
  destruct lg, ss as [s|]; simpl;
    try destruct (connection_session w) as [s|]; simpl;
    try destruct (truthy (default_timeout w s)); reflexivity.
Qed.

Lemma after_timeout_handler dt args kwags self w :
  after_timeout dt args kwags self w
    = after_handler dt self (entered args kwags w).
Proof. reflexivity. Qed.

Ltac run_try_body_with Hf :=
  match type of Hf with
  | (?op ?args ?kwags ?w).1 = ?r =>
      let w1 := fresh "w1" in
      let Hw1 := fresh "Hw1" in
      remember (called op args kwags w).2 as w1 eqn:Hw1;
      simpl loop_with; unfold bind at 1; unfold attempt;
      rewrite invoke_with_run; cbv beta iota;
      change ((called op args kwags w).1 = r) in Hf; rewrite Hf;
      change ((op args kwags w).1 = r) in Hf;
      rewrite <- Hw1; clear Hw1; cbv beta iota
  end.

Lemma loop_with_retry op n dt args kwags self w e :
  (op args kwags w).1 = Raised e ->
  isinstance e (error self) = true ->
  loop_with op (S n) dt args kwags (self, w) =
  loop_with op n (after_handler dt self (called op args kwags w).2).1 args kwags
    (after_handler dt self (called op args kwags w).2).2.
Proof.
  intros Hf He. run_try_body_with Hf. read_self. rewrite He.
  destruct self as [f tr lg ss er].
  unfold after_handler, resolved, emitted, taking_longer.
  unfold on_timeout, warning, bind, self_, on_world, modify, restore, ret.
  simpl.
  destruct lg, ss as [s|]; simpl;
    try destruct (connection_session w1) as [s|]; simpl;
    try destruct (truthy (default_timeout w1 s)); reflexivity.
Qed.

Lemma loop_with_return op n dt args kwags self w v :
  (op args kwags w).1 = Returned v ->
  loop_with op (S n) dt args kwags (self, w)
    = (Returned v, (self, left_with dt self (called op args kwags w).2)).
Proof.
  intros Hf. run_try_body_with Hf.
  unfold bind at 1. rewrite restore_run. reflexivity.
Qed.

Lemma loop_with_propagate op n dt args kwags self w e :
  (op args kwags w).1 = Raised e ->
  isinstance e (error self) = false ->
  loop_with op (S n) dt args kwags (self, w)
    = (Raised e, (self, left_with dt self (called op args kwags w).2)).
Proof.
  intros Hf He. run_try_body_with Hf. read_self. rewrite He.
  unfold bind at 1. rewrite restore_run. reflexivity.
Qed.

Lemma loop_with_O op dt args kwags self w :
  loop_with op 0 dt args kwags (self, w)
    = (Raised (instantiate (error self)), (self, w)).
Proof. reflexivity. Qed.

Lemma execute_with_is_loop op args kwags self w :
  execute_with op args kwags (self, w)
    = loop_with op (Z.to_nat (tries self)) PyNone args kwags (self, w).
Proof. reflexivity. Qed.

Lemma called_pure f args kwags w :
  called (pure_operation f) args kwags w = (f args kwags w, entered args kwags w).
Proof. reflexivity. Qed.

(** For an operation that leaves the state alone, [execute_with] is
    [execute]. *)
Lemma loop_with_pure args kwags n : forall dt self w,
  loop_with (pure_operation (func self)) n dt args kwags (self, w)
    = loop n dt args kwags (self, w).
Proof.
  induction n as [|n IH]; intros dt self w; [reflexivity|].
  destruct (func self args kwags w) as [v|e] eqn:Hf.
  - rewrite (loop_return n dt args kwags self w v Hf).
    rewrite (loop_with_return _ n dt args kwags self w v) by exact Hf.
    reflexivity.
  - destruct (isinstance e (error self)) eqn:He.
    + rewrite (loop_retry n dt args kwags self w e Hf He).
      rewrite (loop_with_retry _ n dt args kwags self w e) by assumption.
      rewrite called_pure, after_timeout_handler. cbn [snd].
      destruct (after_timeout_self dt args kwags self w) as [Hfunc _].
      rewrite after_timeout_handler in Hfunc. cbv zeta in Hfunc.
      destruct (after_handler dt self (entered args kwags w)) as [dt1 [self1 w1]].
      simpl in *. rewrite <- Hfunc. apply IH.
    + rewrite (loop_propagate n dt args kwags self w e Hf He).
      rewrite (loop_with_propagate _ n dt args kwags self w e) by assumption.
      reflexivity.
Qed.

Lemma execute_with_pure args kwags self w :
  execute_with (pure_operation (func self)) args kwags (self, w)
    = execute args kwags (self, w).
Proof. rewrite execute_with_is_loop, execute_is_loop. apply loop_with_pure. Qed.

Lemma after_handler_self dt self w :
  let self' := (after_handler dt self w).2.1 in
  func self' = func self /\ error self' = error self /\
  tries self' = tries self /\ logger self' = logger self.
Proof.
  unfold after_handler, resolved, emitted.
  destruct self as [f tr lg ss er]; simpl.
  destruct ss as [s|]; simpl.
  - repeat split.
  - destruct lg; simpl; destruct (connection_session w); simpl; repeat split.
Qed.

Lemma after_handler_calls dt self w :
  calls (after_handler dt self w).2.2 = calls w.
Proof.
  unfold after_handler, resolved, emitted.
  destruct self as [f tr lg ss er]; simpl.
  destruct lg, ss as [s|]; simpl;
    try destruct (connection_session w) as [s|]; simpl;
    try destruct (truthy (default_timeout w s)); reflexivity.
Qed.

Lemma calls_called op args kwags w :
  calls (called op args kwags w).2 = S (calls w).
Proof. unfold calls, called. simpl. rewrite length_app. simpl. lia. Qed.

Lemma calls_left_with dt self w : calls (left_with dt self w) = calls w.
Proof.
  unfold left_with. destruct (session self); [destruct (truthy dt)|]; reflexivity.
Qed.

Lemma attempt_start_S op args kwags i dt self w :
  attempt_start op args kwags (S i) dt (self, w)
    = attempt_start op args kwags i
        (after_handler dt self (called op args kwags w).2).1
        (after_handler dt self (called op args kwags w).2).2.
Proof. simpl. rewrite handled_run. reflexivity. Qed.

Section AttemptsMade.

Variables (op : Operation) (args : list pyval) (kwags : list (string * pyval)).






End AttemptsMade.



(** ** What [execute] itself does to the state *)

(** An invariant of the loop around an operation with effects. *)
Lemma loop_with_invariant op args kwags (I : pyval -> t -> World -> Prop)
    (Post : t -> World -> Prop) :
  (forall dt self w, I dt self w ->
     retried self (op args kwags w).1 = true ->
     I (after_handler dt self (called op args kwags w).2).1
       (after_handler dt self (called op args kwags w).2).2.1
       (after_handler dt self (called op args kwags w).2).2.2) ->
  (forall dt self w, I dt self w ->
     retried self (op args kwags w).1 = false ->
     Post self (left_with dt self (called op args kwags w).2)) ->
  (forall dt self w, I dt self w -> Post self w) ->
  forall n dt self w, I dt self w ->
    Post (final_self (loop_with op n dt args kwags (self, w)))
         (final_world (loop_with op n dt args kwags (self, w))).
Proof.
  intros Hstep Hleave Hend. induction n as [|n IH]; intros dt self w HI.
  - now apply (Hend dt).
  - destruct (op args kwags w).1 as [v|e] eqn:Hf.
    + rewrite (loop_with_return op n dt args kwags self w v Hf).
      apply Hleave; [exact HI|]. now rewrite Hf.
    + destruct (isinstance e (error self)) eqn:He.
      * rewrite (loop_with_retry op n dt args kwags self w e Hf He).
        specialize (Hstep dt self w HI). rewrite Hf in Hstep.
        specialize (Hstep He).
        destruct (after_handler dt self (called op args kwags w).2)
          as [dt1 [self1 w1]].
        now apply IH.
      * rewrite (loop_with_propagate op n dt args kwags self w e Hf He).
        apply Hleave; [exact HI|]. rewrite Hf. exact He.
Qed.

Lemma after_handler_cases dt self w :
  let w1 := emitted self taking_longer w in
  after_handler dt self w =
  match handle self w with
  | None => (dt, (resolved self w, w1))
  | Some s =>
      (default_timeout w s,
       (resolved self w,
        if truthy (default_timeout w s)
        then set_default_timeout s (default_timeout w s)
               (set_default_timeout s (PyInt 100) w1)
        else set_default_timeout s (PyInt 100) w1))
  end.
Proof.
  unfold handle, after_handler, resolved, emitted, taking_longer.
  destruct self as [f tr lg ss er]; simpl.
  destruct ss as [s|]; simpl.
  - destruct lg; reflexivity.
  - destruct lg; simpl; destruct (connection_session w); reflexivity.
Qed.

Lemma emitted_frame self mesg w :
  DEFAULT_KEYSPACE (emitted self mesg w) = DEFAULT_KEYSPACE w /\
  models_Model (emitted self mesg w) = models_Model w /\
  connection_session (emitted self mesg w) = connection_session w /\
  default_timeout (emitted self mesg w) = default_timeout w /\
  invoked (emitted self mesg w) = invoked w.
Proof. unfold emitted. destruct (logger self); repeat split. Qed.

Lemma touches_only_called h op args kwags w0 w :
  keeps_sessions op -> keeps_keyspace_and_models op ->
  touches_only h w0 w -> touches_only h w0 (called op args kwags w).2.
Proof.
  intros Hs Hg [Hks [Hm [Hcs [Ht [made Hmade]]]]].
  destruct (Hs args kwags w) as [Hcs1 Ht1].
  destruct (Hg args kwags w) as [Hks1 Hm1].
  unfold called. split_touches; simpl; try congruence.
  - intros s. rewrite Ht1. apply Ht.
  - eexists. rewrite Hmade, <- app_assoc. reflexivity.
Qed.

Lemma touches_only_handler h dt self w0 w :
  handle self w = h ->
  touches_only h w0 w ->
  touches_only h w0 (after_handler dt self w).2.2.
Proof.
  intros Hh [Hks [Hm [Hcs [Ht Hmade]]]].
  rewrite after_handler_cases. cbv zeta.
  destruct (emitted_frame self taking_longer w) as [Hks1 [Hm1 [Hcs1 [Ht1 Hi1]]]].
  set (w1 := emitted self taking_longer w) in *.
  assert (Hgrown : exists made', invoked w1 = (invoked w0 ++ made')%list)
    by now rewrite Hi1.
  assert (Hother : forall s', default_timeout w1 s' = default_timeout w0 s' \/
                              (h = Some s' /\ default_timeout w1 s' = PyInt 100)).
  { intros s'. rewrite Ht1. apply Ht. }
  rewrite Hh. destruct h as [s|]; simpl.
  - destruct (truthy (default_timeout w s)); split_touches;
      try (simpl; congruence); try exact Hgrown.
    + intros s'. rewrite !default_timeout_set.
      destruct (Nat.eqb_spec s' s) as [->|]; [|apply Hother]. apply Ht.
    + intros s'. rewrite !default_timeout_set.
      destruct (Nat.eqb_spec s' s) as [->|]; [|apply Hother]. now right.
  - split_touches; try congruence; try exact Hgrown. exact Hother.
Qed.

Lemma touches_only_left h dt self w0 w :
  handle self w = h ->
  (truthy dt = true ->
   exists s, session self = Some s /\ (dt = default_timeout w0 s \/ dt = PyInt 100)) ->
  touches_only h w0 w ->
  touches_only h w0 (left_with dt self w).
Proof.
  intros Hh Hdt Htouch.
  unfold left_with. destruct (session self) as [s|] eqn:Hs; [|exact Htouch].
  destruct (truthy dt) eqn:Htruthy; [|exact Htouch].
  destruct Htouch as [Hks [Hm [Hcs [Ht Hmade]]]].
  split_touches; try assumption.
  intros s'. rewrite default_timeout_set.
  destruct (Nat.eqb_spec s' s) as [->|]; [|apply Ht].
  destruct (Hdt eq_refl) as [s2 [Hs2 Hval]].
  assert (s2 = s) by congruence. subst s2.
  destruct Hval as [->| ->]; [now left|].
  right. split; [|reflexivity]. rewrite <- Hh. now apply handle_given.
Qed.

Lemma recorded_handler dt self w0 w :
  touches_only (handle self w) w0 w ->
  (truthy dt = true ->
   exists s, session self = Some s /\ (dt = default_timeout w0 s \/ dt = PyInt 100)) ->
  truthy (after_handler dt self w).1 = true ->
  exists s, session (after_handler dt self w).2.1 = Some s /\
            ((after_handler dt self w).1 = default_timeout w0 s \/
             (after_handler dt self w).1 = PyInt 100).
Proof.
  intros [_ [_ [_ [Ht _]]]] Hdt. rewrite after_handler_cases. cbv zeta.
  destruct (handle self w) as [s|] eqn:Hh; simpl.
  - intros _. exists s. split; [exact Hh|].
    destruct (Ht s) as [->|[_ ->]]; [now left|now right].
  - intros Htruthy. destruct (Hdt Htruthy) as [s [Hs _]].
    rewrite (handle_given self w s Hs) in Hh. discriminate.
Qed.

Lemma handle_after_handler dt self w :
  handle (after_handler dt self w).2.1 (after_handler dt self w).2.2
    = handle self w.
Proof.
  pose proof (touches_only_handler (handle self w) dt self w w eq_refl) as Htouch.
  destruct Htouch as [_ [_ [Hcs _]]].
  { split_touches; try reflexivity; [intros s; now left|].
    exists []. now rewrite app_nil_r. }
  rewrite after_handler_cases in *. cbv zeta in *.
  destruct (handle self w) as [s|] eqn:Hh; simpl in *;
    rewrite <- Hh; apply handle_resolved; exact Hcs.
Qed.

Lemma handle_called op args kwags self w :
  keeps_sessions op -> handle self (called op args kwags w).2 = handle self w.
Proof.
  intros Hs. destruct (Hs args kwags w) as [Hcs _].
  unfold handle, resolved. destruct (session self); [reflexivity|].
  simpl. exact Hcs.
Qed.

(** X6: When [tries] is positive and the first call returns [v], [execute]
    returns [v] and adds nothing of its own: the executor is as before and
    the process state is the one the operation left, with the one call in
    the trace.  No warning is emitted, no session is looked up and no
    timeout is assigned by [execute]. *)
Theorem execute_first_attempt_returns (op : Operation) (self : t)
    (args : list pyval) (kwags : list (string * pyval)) (w w1 : World)
    (v : pyval) :
  0 < tries self ->
  op args kwags w = (Returned v, w1) ->
  execute_with op args kwags (self, w)
    = (Returned v,
       (self,
        set_invoked
          (invoked w ++ [{| inv_args := args; inv_kwargs := kwags;
                            inv_timeouts := default_timeout w |}])%list
          w1)).
Proof.
  intros Htries Hop. rewrite execute_with_is_loop.
  destruct (Z.to_nat (tries self)) as [|n] eqn:Hn; [lia|].
  rewrite (loop_with_return op n PyNone args kwags self w v)
    by now rewrite Hop.
  unfold left_with, called. rewrite Hop. simpl.
  destruct (session self); reflexivity.
Qed.

(** An operation that prints and shortens the timeout while it succeeds:
    the run ends with just that, nothing added by [execute]. *)
Lemma execute_first_attempt_returns_witness :
  let r := execute_with chatty_success [PyStr "test1"] []
             (executor_with_session always_succeeds, world0) in
  outcome r = Returned PyNone /\
  final_self r = executor_with_session always_succeeds /\
  printed (final_world r) = ["dropped"] /\
  default_timeout (final_world r) 0%nat = PyInt 5 /\
  calls (final_world r) = 1%nat.
Proof.
  cbv zeta.
  rewrite (execute_first_attempt_returns chatty_success
             (executor_with_session always_succeeds) [PyStr "test1"] [] world0
             (set_default_timeout 0%nat (PyInt 5) (print "dropped" world0)) PyNone);
    [|reflexivity|reflexivity].
  repeat split.
Defined.

(** X7: For an operation that itself assigns no session timeout, no
    [connection.session], no default keyspace and no model class: however
    [execute] ends, [DEFAULT_KEYSPACE], the model classes and
    [connection.session] are as before, the trace has only grown, and every
    session's default timeout is as it was, except that the timeout of the
    session the executor works with (the one passed in, else
    [connection.session]) may be 100 instead. *)
Theorem execute_touches_only_its_session (op : Operation) (self : t)
    (args : list pyval) (kwags : list (string * pyval)) (w : World) :
  keeps_sessions op ->
  keeps_keyspace_and_models op ->
  let w' := final_world (execute_with op args kwags (self, w)) in
  DEFAULT_KEYSPACE w' = DEFAULT_KEYSPACE w /\
  models_Model w' = models_Model w /\
  connection_session w' = connection_session w /\
  (forall s, default_timeout w' s = default_timeout w s \/
             (handle self w = Some s /\ default_timeout w' s = PyInt 100)) /\
  exists made, invoked w' = (invoked w ++ made)%list.
Proof.
  intros Hs Hg. cbv zeta. rewrite execute_with_is_loop.
  set (h := handle self w).
  apply (loop_with_invariant op args kwags
           (fun dt self1 w1 =>
              handle self1 w1 = h /\ touches_only h w w1 /\
              (truthy dt = true ->
               exists s, session self1 = Some s /\
                         (dt = default_timeout w s \/ dt = PyInt 100)))
           (fun _ w1 => touches_only h w w1)).
  - intros dt self1 w1 [Hh [Htouch Hdt]] _.
    assert (Hh1 : handle self1 (called op args kwags w1).2 = h)
      by now rewrite handle_called.
    pose proof (touches_only_called h op args kwags w w1 Hs Hg Htouch) as Htouch1.
    split; [|split].
    + now rewrite handle_after_handler.
    + now apply touches_only_handler.
    + apply recorded_handler; [now rewrite Hh1|exact Hdt].
  - intros dt self1 w1 [Hh [Htouch Hdt]] _.
    apply touches_only_left; [now rewrite handle_called|exact Hdt|].
    now apply touches_only_called.
  - intros dt self1 w1 [_ [Htouch _]]. exact Htouch.
  - split; [reflexivity|]. split; [|discriminate].
    split_touches; try reflexivity; [intros s; now left|].
    exists []. now rewrite app_nil_r.
Qed.

(** An operation that times out and prints: session [0] started at [None]
    and ends at 100, session [1] is as before. *)
Lemma execute_touches_only_its_session_witness :
  let w := world_with_timeout PyNone Model_with_animals in
  let w' := final_world (execute_with chatty_timeout [PyStr "test1"] []
                           (executor_with_session always_times_out, w)) in
  default_timeout w' 0%nat = PyInt 100 /\
  default_timeout w' 1%nat = PyNone /\
  connection_session w' = Some 0%nat.
Proof.
  cbv zeta.
  destruct (execute_touches_only_its_session chatty_timeout
              (executor_with_session always_times_out) [PyStr "test1"] []
              (world_with_timeout PyNone Model_with_animals))
    as [_ [_ [Hcs [Ht _]]]].
  - intros args kwags w. split; [reflexivity|]. intros s. reflexivity.
  - intros args kwags w. split; reflexivity.
  - split; [reflexivity|]. split; [|exact Hcs].
    destruct (Ht 1%nat) as [H1|[Hh _]]; [exact H1|discriminate].
Defined.

Lemma timeouts_untouched_called op args kwags w0 w :
  keeps_sessions op ->
  timeouts_untouched w0 w -> timeouts_untouched w0 (called op args kwags w).2.
Proof.
  intros Hs [Ht [Hcs [made [Hmade Hseen]]]].
  destruct (Hs args kwags w) as [Hcs1 Ht1].
  split; [|split].
  - intros s. simpl. now rewrite Ht1.
  - simpl. congruence.
  - eexists. split.
    + simpl. rewrite Hmade, <- app_assoc. reflexivity.
    + apply Forall_app. split; [exact Hseen|]. constructor; [|constructor].
      intros s. apply Ht.
Qed.

Lemma timeouts_untouched_handler dt self w0 w :
  (forall s, handle self w = Some s -> truthy (default_timeout w0 s) = true) ->
  timeouts_untouched w0 w ->
  timeouts_untouched w0 (after_handler dt self w).2.2 /\
  (truthy (after_handler dt self w).1 = true ->
   (truthy dt = true -> exists s, session self = Some s /\ dt = default_timeout w0 s) ->
   exists s, session (after_handler dt self w).2.1 = Some s /\
             (after_handler dt self w).1 = default_timeout w0 s).
Proof.
  intros Htruthy [Ht [Hcs [made [Hmade Hseen]]]].
  rewrite after_handler_cases. cbv zeta.
  destruct (emitted_frame self taking_longer w) as [_ [_ [Hcs1 [Ht1 Hi1]]]].
  set (w1 := emitted self taking_longer w) in *.
  destruct (handle self w) as [s|] eqn:Hh; simpl.
  - assert (Hs : truthy (default_timeout w s) = true)
      by (rewrite Ht; now apply Htruthy).
    rewrite Hs. split.
    + split; [|split].
      * intros s'. rewrite !default_timeout_set.
        destruct (Nat.eqb_spec s' s) as [->|]; [apply Ht|].
        rewrite Ht1. apply Ht.
      * simpl. congruence.
      * exists made. split; [simpl; congruence|exact Hseen].
    + intros _ _. exists s. split; [exact Hh|apply Ht].
  - split.
    + split; [|split].
      * intros s'. rewrite Ht1. apply Ht.
      * congruence.
      * exists made. split; [congruence|exact Hseen].
    + intros Hdt Hrec. destruct (Hrec Hdt) as [s [Hs _]].
      rewrite (handle_given self w s Hs) in Hh. discriminate.
Qed.

Lemma timeouts_untouched_left dt self w0 w :
  (truthy dt = true -> exists s, session self = Some s /\ dt = default_timeout w0 s) ->
  timeouts_untouched w0 w -> timeouts_untouched w0 (left_with dt self w).
Proof.
  intros Hdt Hun. unfold left_with.
  destruct (session self) as [s|] eqn:Hs; [|exact Hun].
  destruct (truthy dt) eqn:Htruthy; [|exact Hun].
  destruct Hun as [Ht [Hcs [made [Hmade Hseen]]]].
  destruct (Hdt eq_refl) as [s2 [Hs2 ->]].
  assert (s2 = s) by congruence. subst s2.
  split; [|split].
  - intros s'. rewrite default_timeout_set.
    destruct (Nat.eqb_spec s' s) as [->|]; [reflexivity|apply Ht].
  - exact Hcs.
  - exists made. split; [exact Hmade|exact Hseen].
Qed.

(** X8: For an operation that itself assigns no session timeout and no
    [connection.session]: when the session the executor works with has a
    truthy default timeout, every call [execute] makes sees the sessions'
    timeouts as they were at the start (the assignment of 100 is undone
    before the next call), and they are as at the start when [execute]
    ends, whether it returns or raises. *)
Theorem execute_keeps_truthy_timeout (op : Operation) (self : t)
    (args : list pyval) (kwags : list (string * pyval)) (w : World) :
  keeps_sessions op ->
  (forall s, handle self w = Some s -> truthy (default_timeout w s) = true) ->
  let w' := final_world (execute_with op args kwags (self, w)) in
  (forall s, default_timeout w' s = default_timeout w s) /\
  Forall (fun i => forall s, inv_timeouts i s = default_timeout w s)
         (calls_since w w').
Proof.
  intros Hs Htruthy. cbv zeta. rewrite execute_with_is_loop.
  set (h := handle self w) in *.
  assert (Hun : timeouts_untouched w
            (final_world (loop_with op (Z.to_nat (tries self)) PyNone args kwags
                            (self, w)))).
  { apply (loop_with_invariant op args kwags
             (fun dt self1 w1 =>
                handle self1 w1 = h /\ timeouts_untouched w w1 /\
                (truthy dt = true ->
                 exists s, session self1 = Some s /\ dt = default_timeout w s))
             (fun _ w1 => timeouts_untouched w w1)).
    - intros dt self1 w1 [Hh [Hun Hdt]] _.
      assert (Hh1 : handle self1 (called op args kwags w1).2 = h)
        by now rewrite handle_called.
      pose proof (timeouts_untouched_called op args kwags w w1 Hs Hun) as Hun1.
      destruct (timeouts_untouched_handler dt self1 w (called op args kwags w1).2)
        as [Hun2 Hrec]; [now rewrite Hh1|exact Hun1|].
      split; [now rewrite handle_after_handler|]. split; [exact Hun2|].
      intros Ht. now apply Hrec.
    - intros dt self1 w1 [Hh [Hun Hdt]] _.
      apply timeouts_untouched_left; [exact Hdt|].
      now apply timeouts_untouched_called.
    - intros dt self1 w1 [_ [Hun _]]. exact Hun.
    - split; [reflexivity|]. split; [apply timeouts_untouched_refl|discriminate]. }
  destruct Hun as [Hsame [_ [made [Hmade Hseen]]]].
  split; [exact Hsame|]. now rewrite (calls_since_app _ _ made Hmade).
Qed.

(** A session at 10 seconds and an operation that times out, printing:
    both calls see 10 and the session ends at 10. *)
Lemma execute_keeps_truthy_timeout_witness :
  let w' := final_world (execute_with chatty_timeout [PyStr "test1"] []
                           (executor_with_session always_times_out, world0)) in
  default_timeout w' 0%nat = PyInt 10 /\
  Forall (fun i => forall s, inv_timeouts i s = PyInt 10) (calls_since world0 w').
Proof.
  destruct (execute_keeps_truthy_timeout chatty_timeout
              (executor_with_session always_times_out) [PyStr "test1"] [] world0)
    as [Hsame Hseen].
  - intros args kwags w. split; [reflexivity|]. intros s. reflexivity.
  - intros s _. reflexivity.
  - split; [apply Hsame|exact Hseen].
Defined.

Lemma after_handler_world_sinks dt self w :
  logged (after_handler dt self w).2.2 = logged (emitted self taking_longer w) /\
  printed (after_handler dt self w).2.2 = printed (emitted self taking_longer w).
Proof.
  rewrite after_handler_cases. cbv zeta.
  destruct (handle self w); simpl; [|split; reflexivity].
  destruct (truthy _); split; reflexivity.
Qed.

Lemma left_with_sinks dt self w :
  logged (left_with dt self w) = logged w /\
  printed (left_with dt self w) = printed w.
Proof.
  unfold left_with. destruct (session self); [destruct (truthy dt)|];
    split; reflexivity.
Qed.

Lemma called_sinks op args kwags w :
  keeps_outputs op ->
  logged (called op args kwags w).2 = logged w /\
  printed (called op args kwags w).2 = printed w.
Proof. intros Ho. destruct (Ho args kwags w) as [Hl Hp]. split; assumption. Qed.

(** One more warning in front of [k] others. *)
Lemma warned_after_one (self : t) k w w1 w' :
  logged w1 = logged (emitted self taking_longer w) ->
  printed w1 = printed (emitted self taking_longer w) ->
  warned (logger self) k w1 w' ->
  warned (logger self) (S k) w w'.
Proof.
  unfold warned, emitted. intros Hl Hp.
  destruct (logger self); simpl in *; intros [H1 H2]; split.
  - rewrite H1, Hl, <- app_assoc. reflexivity.
  - congruence.
  - rewrite H1, Hp, <- app_assoc. reflexivity.
  - congruence.
Qed.

Lemma warned_none lg w w' :
  logged w' = logged w -> printed w' = printed w -> warned lg 0 w w'.
Proof.
  unfold warned. intros -> ->. simpl. rewrite !app_nil_r. destruct lg; split; reflexivity.
Qed.

Section WarningsMade.

Variables (op : Operation) (args : list pyval) (kwags : list (string * pyval)).
Hypothesis op_keeps_outputs : keeps_outputs op.

(** [j] attempts are retried and then the run ends, because the attempts
    are used up or because the next one is not retried: [j] warnings. *)
Lemma loop_with_warns j : forall n dt self w,
  (j <= n)%nat ->
  (forall i, (i < j)%nat ->
     retried self (op args kwags (attempt_start op args kwags i dt (self, w)).2.2).1
       = true) ->
  (j = n \/
   retried self (op args kwags (attempt_start op args kwags j dt (self, w)).2.2).1
     = false) ->
  warned (logger self) j w (final_world (loop_with op n dt args kwags (self, w))) /\
  calls (final_world (loop_with op n dt args kwags (self, w)))
    = (calls w + j + (if Nat.eqb j n then 0 else 1))%nat.
Proof.
  induction j as [|j IH]; intros n dt self w Hle Hfail Hend.
  - destruct n as [|n].
    + rewrite loop_with_O. unfold final_world. simpl. split; [|lia].
      now apply warned_none.
    + destruct Hend as [Hend|Hend]; [discriminate|]. simpl in Hend.
      assert (Hleft : final_world (loop_with op (S n) dt args kwags (self, w))
                      = left_with dt self (called op args kwags w).2).
      { destruct (op args kwags w).1 as [v|e] eqn:Hf.
        - now rewrite (loop_with_return op n dt args kwags self w v Hf).
        - simpl in Hend.
          now rewrite (loop_with_propagate op n dt args kwags self w e Hf Hend). }
      rewrite Hleft. split.
      * destruct (left_with_sinks dt self (called op args kwags w).2) as [Hl Hp].
        destruct (called_sinks op args kwags w op_keeps_outputs) as [Hl1 Hp1].
        apply warned_none; congruence.
      * rewrite calls_left_with, calls_called. simpl. lia.
  - destruct n as [|n]; [lia|].
    pose proof (Hfail 0%nat ltac:(lia)) as H0. simpl in H0.
    destruct (op args kwags w).1 as [v|e] eqn:Hf; [discriminate|]. simpl in H0.
    rewrite (loop_with_retry op n dt args kwags self w e Hf H0).
    destruct (after_handler_self dt self (called op args kwags w).2)
      as [_ [Herr [_ Hlg]]].
    pose proof (after_handler_calls dt self (called op args kwags w).2) as Hcalls.
    rewrite calls_called in Hcalls.
    destruct (after_handler_world_sinks dt self (called op args kwags w).2)
      as [Hl Hp].
    destruct (called_sinks op args kwags w op_keeps_outputs) as [Hl1 Hp1].
    assert (Hfail' : forall i, (i < j)%nat ->
              retried (after_handler dt self (called op args kwags w).2).2.1
                (op args kwags
                   (attempt_start op args kwags i
                      (after_handler dt self (called op args kwags w).2).1
                      (after_handler dt self (called op args kwags w).2).2).2.2).1
              = true).
    { intros i Hi. specialize (Hfail (S i) ltac:(lia)).
      rewrite attempt_start_S in Hfail. unfold retried in *.
      now rewrite Herr. }
    assert (Hend' : j = n \/
              retried (after_handler dt self (called op args kwags w).2).2.1
                (op args kwags
                   (attempt_start op args kwags j
                      (after_handler dt self (called op args kwags w).2).1
                      (after_handler dt self (called op args kwags w).2).2).2.2).1
              = false).
    { destruct Hend as [Hend|Hend]; [left; lia|right].
      rewrite attempt_start_S in Hend. unfold retried in *.
      now rewrite Herr. }
    destruct (after_handler dt self (called op args kwags w).2) as [dt1 [self1 w1]].
    simpl in *.
    destruct (IH n dt1 self1 w1 ltac:(lia) Hfail' Hend') as [Hwarned Hn].
    split.
    + rewrite Hlg in Hwarned.
      apply (warned_after_one self j w w1); [| |exact Hwarned].
      * rewrite Hl. unfold emitted. destruct (logger self); simpl; congruence.
      * rewrite Hp. unfold emitted. destruct (logger self); simpl; congruence.
    + rewrite Hn. lia.
Qed.

End WarningsMade.

(** X9: For an operation that itself writes neither to the logger nor to
    the standard output: when the first [j] attempts end in an error that
    is retried and the run then ends, because the attempts are used up or
    because attempt [j + 1] returns or raises another error, [execute] has
    emitted exactly [j] warnings, one for each retried call and none for
    the call that ends the run.  They all went to the logger when the
    executor has one and to the standard output otherwise; the other of
    the two is as before. *)
Theorem execute_warns_per_timeout (op : Operation) (self : t)
    (args : list pyval) (kwags : list (string * pyval)) (w : World) (j : nat) :
  keeps_outputs op ->
  (j <= Z.to_nat (tries self))%nat ->
  (forall i, (i < j)%nat ->
     retried self (attempt_outcome op args kwags (self, w) i) = true) ->
  (j = Z.to_nat (tries self) \/
   retried self (attempt_outcome op args kwags (self, w) j) = false) ->
  let w' := final_world (execute_with op args kwags (self, w)) in
  (if logger self
   then logged w' = (logged w ++ repeat taking_longer j)%list /\
        printed w' = printed w
   else printed w' = (printed w ++ repeat taking_longer j)%list /\
        logged w' = logged w) /\
  calls w' = (calls w + j + (if Nat.eqb j (Z.to_nat (tries self)) then 0 else 1))%nat.
Proof.
  intros Ho Hle Hfail Hend. cbv zeta. rewrite execute_with_is_loop.
  exact (loop_with_warns op args kwags Ho j (Z.to_nat (tries self)) PyNone self w
           Hle Hfail Hend).
Qed.

(** From the timeout [None] the operation that waits for 100 is retried
    once and then returns: one warning on the standard output, two calls. *)
Lemma execute_warns_per_timeout_witness :
  let w := world_with_timeout PyNone Model_with_animals in
  let w' := final_world
              (execute_with (returns_when_elevated (PyStr "dropped"))
                 [PyStr "test1"] [] (executor_with_session always_times_out, w)) in
  printed w' = [taking_longer] /\ logged w' = [] /\ calls w' = 2%nat.
Proof.
  cbv zeta.
  destruct (execute_warns_per_timeout (returns_when_elevated (PyStr "dropped"))
              (executor_with_session always_times_out) [PyStr "test1"] []
              (world_with_timeout PyNone Model_with_animals) 1%nat)
    as [[Hp Hl] Hcalls].
  - intros args kwags w. split; reflexivity.
  - simpl. lia.
  - intros [|i] Hi; [reflexivity|lia].
  - right. reflexivity.
  - split; [exact Hp|]. split; [exact Hl|exact Hcalls].
Defined.

Lemma after_handler_executor dt self w :
  (after_handler dt self w).2.1 = resolved self w.
Proof.
  rewrite after_handler_cases. cbv zeta. destruct (handle self w); reflexivity.
Qed.

Lemma after_handler_connection dt self w :
  connection_session (after_handler dt self w).2.2 = connection_session w.
Proof.
  destruct (touches_only_handler (handle self w) dt self w w eq_refl)
    as [_ [_ [Hcs _]]]; [|exact Hcs].
  split_touches; try reflexivity; [intros s; now left|].
  exists []. now rewrite app_nil_r.
Qed.

(** X10: [execute] leaves the executor's [func], [tries], [logger] and
    [error] as they are and never replaces a session that was passed in.
    For an operation that does not itself assign [connection.session], a
    missing session either stays missing or becomes [connection.session]. *)
Theorem execute_keeps_executor (op : Operation) (self : t)
    (args : list pyval) (kwags : list (string * pyval)) (w : World) :
  let self' := final_self (execute_with op args kwags (self, w)) in
  func self' = func self /\ tries self' = tries self /\
  logger self' = logger self /\ error self' = error self /\
  (forall s, session self = Some s -> session self' = Some s) /\
  ((forall a k w0, connection_session (op a k w0).2 = connection_session w0) ->
   session self' = session self \/
   (session self = None /\ session self' = connection_session w)).
Proof.
  cbv zeta. rewrite execute_with_is_loop.
  apply (loop_with_invariant op args kwags
           (fun _ self1 w1 =>
              func self1 = func self /\ tries self1 = tries self /\
              logger self1 = logger self /\ error self1 = error self /\
              (forall s, session self = Some s -> session self1 = Some s) /\
              ((forall a k w0, connection_session (op a k w0).2 = connection_session w0) ->
               connection_session w1 = connection_session w /\
               (session self1 = session self \/
                (session self = None /\ session self1 = connection_session w))))
           (fun self1 _ =>
              func self1 = func self /\ tries self1 = tries self /\
              logger self1 = logger self /\ error self1 = error self /\
              (forall s, session self = Some s -> session self1 = Some s) /\
              ((forall a k w0, connection_session (op a k w0).2 = connection_session w0) ->
               session self1 = session self \/
               (session self = None /\ session self1 = connection_session w)))).
  - intros dt self1 w1 [Hf [Ht [Hl [He [Hkept Hcond]]]]] _.
    destruct (after_handler_self dt self1 (called op args kwags w1).2)
      as [Hf1 [He1 [Ht1 Hl1]]].
    repeat (split; [congruence|]).
    rewrite after_handler_executor, after_handler_connection. split.
    + intros s Hs. rewrite (resolved_given self1 _ s (Hkept s Hs)). now apply Hkept.
    + intros Hop. destruct (Hcond Hop) as [Hcs Hsess].
      assert (Hcs1 : connection_session (called op args kwags w1).2 = connection_session w).
      { unfold called. simpl. now rewrite Hop. }
      split; [exact Hcs1|].
      unfold resolved. destruct (session self1) as [s|] eqn:Hs1.
      * rewrite Hs1. exact Hsess.
      * simpl. right. split; [|exact Hcs1].
        destruct Hsess as [<-|[Hnone _]]; [reflexivity|exact Hnone].
  - intros dt self1 w1 [Hf [Ht [Hl [He [Hkept Hcond]]]]] _.
    repeat (split; [assumption|]). intros Hop. now destruct (Hcond Hop).
  - intros dt self1 w1 [Hf [Ht [Hl [He [Hkept Hcond]]]]].
    repeat (split; [assumption|]). intros Hop. now destruct (Hcond Hop).
  - repeat (split; [reflexivity|]). split; [intros s Hs; exact Hs|].
    intros _. split; [reflexivity|now left].
Qed.

(** The executor built by [drop_db], whose session is missing, after an
    operation that times out: it now holds [connection.session]. *)
Lemma execute_keeps_executor_witness :
  let self' := final_self (execute_with chatty_timeout [PyStr "test1"] []
                             (executor_for always_times_out, world0)) in
  session self' = Some 0%nat /\ tries self' = 2.
Proof.
  cbv zeta.
  destruct (execute_keeps_executor chatty_timeout (executor_for always_times_out)
              [PyStr "test1"] [] world0) as [_ [Ht [_ [_ [_ Hsess]]]]].
  split; [|exact Ht].
  destruct Hsess as [Hsame|[_ Hconn]].
  - intros a k w0. reflexivity.
  - vm_compute in Hsame. discriminate.
  - exact Hconn.
Defined.
